(** * WhatsApp auto-reply agent: the dedup ledger, the responder and the
      monitoring loop of [src/p.py], as a shallow embedding.

    Python values are modelled as follows.
    - [str] is a list of Unicode code points ([pystr]); [len] is [length],
      [s[:n]] is [take n s], [a in b] is [str_in a b].
    - [set] of strings is [gset pystr], [dict] from strings to timestamps is
      [gmap pystr Q].
    - A reading of [time.time()] is an exact rational, and differences of
      readings are exact; the rounding of float arithmetic is not modelled.
    - Every call into the browser, the clipboard and the language model is an
      input of the iteration: the outcome of each probe is recorded in an
      environment record, with [None] standing for a raised exception that
      the source catches at that place.  The order in which Python enumerates
      a [set] is such an input too. *)

From Stdlib Require Import ZArith QArith Qround Lia Lqa String Ascii DecimalString.
From stdpp Require Import base option list gmap.

Local Open Scope Z_scope.

(** ** Python strings *)

Module PyStr.

Definition pystr : Type := list Z.

(** An ASCII literal of the source, as code points. *)
Definition lit (s : string) : pystr :=
  (λ c, Z.of_N (N_of_ascii c)) <$> list_ascii_of_string s.

(** [str(n)] for an [int], as used by the f-strings of the source. *)
Definition str_of_int (n : Z) : pystr :=
  lit (NilEmpty.string_of_int (Z.to_int n)).

(** The code points for which [str.isspace] holds; [str.strip()] removes
    exactly these from both ends. *)
Definition whitespace : list Z :=
  [9; 10; 11; 12; 13; 28; 29; 30; 31; 32; 133; 160; 5760;
   8192; 8193; 8194; 8195; 8196; 8197; 8198; 8199; 8200; 8201; 8202;
   8232; 8233; 8239; 8287; 12288].

Definition is_space (c : Z) : bool := existsb (Z.eqb c) whitespace.

Fixpoint lstrip (s : pystr) : pystr :=
  match s with
  | c :: r => if is_space c then lstrip r else s
  | [] => []
  end.

Definition rstrip (s : pystr) : pystr := rev (lstrip (rev s)).

Definition strip (s : pystr) : pystr := rstrip (lstrip s).

(** [s.startswith(p)] *)
Fixpoint startswith (s p : pystr) : bool :=
  match p, s with
  | [], _ => true
  | _ :: _, [] => false
  | c :: p', d :: s' => (c =? d) && startswith s' p'
  end.

(** [sub in s] *)
Fixpoint str_in (sub s : pystr) : bool :=
  startswith s sub ||
  match s with
  | [] => false
  | _ :: r => str_in sub r
  end.

(** Truthiness of a string: non-empty. *)
Definition truthy (s : pystr) : bool :=
  match s with [] => false | _ :: _ => true end.

(** [str.lower] on text that is ASCII only; the agent's own literals and the
    examples below are. *)
Definition ascii_lower_char (c : Z) : Z :=
  if (65 <=? c) && (c <=? 90) then c + 32 else c.

Definition ascii_lower (s : pystr) : pystr := ascii_lower_char <$> s.

(** [str.encode()], UTF-8.  Lone surrogates make Python raise
    [UnicodeEncodeError]: [None]. *)
Definition utf8_char (c : Z) : option (list Z) :=
  if c <? 0 then None
  else if c <? 128 then Some [c]
  else if c <? 2048 then
    Some [Z.lor 192 (Z.shiftr c 6); Z.lor 128 (Z.land c 63)]
  else if c <? 65536 then
    if (55296 <=? c) && (c <=? 57343) then None
    else Some [Z.lor 224 (Z.shiftr c 12);
               Z.lor 128 (Z.land (Z.shiftr c 6) 63);
               Z.lor 128 (Z.land c 63)]
  else if c <? 1114112 then
    Some [Z.lor 240 (Z.shiftr c 18);
          Z.lor 128 (Z.land (Z.shiftr c 12) 63);
          Z.lor 128 (Z.land (Z.shiftr c 6) 63);
          Z.lor 128 (Z.land c 63)]
  else None.

Definition encode (s : pystr) : option (list Z) :=
  mjoin <$> mapM utf8_char s.

End PyStr.

Import PyStr.

(** ** hashlib.md5 *)

Module MD5.

Definition w32 (x : Z) : Z := Z.land x 4294967295.

Definition add32 (a b : Z) : Z := w32 (a + b).

Definition not32 (x : Z) : Z := Z.lxor x 4294967295.

Definition rotl32 (x c : Z) : Z :=
  w32 (Z.lor (Z.shiftl x c) (Z.shiftr x (32 - c))).

Definition shifts : list Z :=
  [7; 12; 17; 22; 7; 12; 17; 22; 7; 12; 17; 22; 7; 12; 17; 22;
   5; 9; 14; 20; 5; 9; 14; 20; 5; 9; 14; 20; 5; 9; 14; 20;
   4; 11; 16; 23; 4; 11; 16; 23; 4; 11; 16; 23; 4; 11; 16; 23;
   6; 10; 15; 21; 6; 10; 15; 21; 6; 10; 15; 21; 6; 10; 15; 21].

Definition sines : list Z :=
  [3614090360; 3905402710; 606105819; 3250441966; 4118548399; 1200080426;
   2821735955; 4249261313; 1770035416; 2336552879; 4294925233; 2304563134;
   1804603682; 4254626195; 2792965006; 1236535329; 4129170786; 3225465664;
   643717713; 3921069994; 3593408605; 38016083; 3634488961; 3889429448;
   568446438; 3275163606; 4107603335; 1163531501; 2850285829; 4243563512;
   1735328473; 2368359562; 4294588738; 2272392833; 1839030562; 4259657740;
   2763975236; 1272893353; 4139469664; 3200236656; 681279174; 3936430074;
   3572445317; 76029189; 3654602809; 3873151461; 530742520; 3299628645;
   4096336452; 1126891415; 2878612391; 4237533241; 1700485571; 2399980690;
   4293915773; 2240044497; 1873313359; 4264355552; 2734768916; 1309151649;
   4149444226; 3174756917; 718787259; 3951481745].

(** Little-endian bytes of a word, and back. *)
Fixpoint le_bytes (n : nat) (x : Z) : list Z :=
  match n with
  | O => []
  | S n' => Z.land x 255 :: le_bytes n' (Z.shiftr x 8)
  end.

Fixpoint le_word (bs : list Z) : Z :=
  match bs with
  | [] => 0
  | b :: r => Z.lor b (Z.shiftl (le_word r) 8)
  end.

(** The message followed by 0x80, zeros up to 56 modulo 64, and the bit
    length on 8 bytes. *)
Definition pad (msg : list Z) : list Z :=
  let n := Z.of_nat (length msg) in
  let zeros := Z.to_nat ((55 - n) mod 64) in
  msg ++ [128] ++ replicate zeros 0 ++ le_bytes 8 (8 * n).

Fixpoint chunks (fuel : nat) (bs : list Z) : list (list Z) :=
  match fuel with
  | O => []
  | S f =>
      match bs with
      | [] => []
      | _ => take 64 bs :: chunks f (drop 64 bs)
      end
  end.

Fixpoint words (n : nat) (bs : list Z) : list Z :=
  match n with
  | O => []
  | S n' => le_word (take 4 bs) :: words n' (drop 4 bs)
  end.

Record regs := Regs { rA : Z; rB : Z; rC : Z; rD : Z }.

Definition round (m : list Z) (r : regs) (i : Z) : regs :=
  let '(Regs a b c d) := r in
  let '(f, g) :=
    if i <? 16 then (Z.lor (Z.land b c) (Z.land (not32 b) d), i)
    else if i <? 32 then
      (Z.lor (Z.land d b) (Z.land (not32 d) c), (5 * i + 1) mod 16)
    else if i <? 48 then (Z.lxor b (Z.lxor c d), (3 * i + 5) mod 16)
    else (Z.lxor c (Z.lor b (not32 d)), (7 * i) mod 16) in
  let k := default 0 (sines !! Z.to_nat i) in
  let s := default 0 (shifts !! Z.to_nat i) in
  let w := default 0 (m !! Z.to_nat g) in
  let f' := add32 (add32 (add32 f a) k) w in
  Regs d (add32 b (rotl32 f' s)) b c.

Definition block (r : regs) (chunk : list Z) : regs :=
  let m := words 16 chunk in
  let r' := foldl (round m) r (Z.of_nat <$> seq 0 64) in
  Regs (add32 (rA r) (rA r')) (add32 (rB r) (rB r'))
       (add32 (rC r) (rC r')) (add32 (rD r) (rD r')).

Definition digest (msg : list Z) : list Z :=
  let p := pad msg in
  let r := foldl block (Regs 1732584193 4023233417 2562383102 271733878)
                 (chunks (length p) p) in
  le_bytes 4 (rA r) ++ le_bytes 4 (rB r) ++ le_bytes 4 (rC r) ++ le_bytes 4 (rD r).

Definition hex_digit (n : Z) : Z :=
  if n <? 10 then 48 + n else 87 + n.

Definition hexdigest (msg : list Z) : pystr :=
  digest msg ≫= λ b, [hex_digit (Z.shiftr b 4); hex_digit (Z.land b 15)].

End MD5.

(** ** Clock readings *)

(** [a < b] on readings of [time.time()]. *)
Definition Qltb (a b : Q) : bool := negb (Qle_bool b a).

(** [int(t)]: truncation toward zero. *)
Definition py_int (t : Q) : Z := Z.quot (Qnum t) (Z.pos (Qden t)).

(** ** The agent *)

(** The attributes of [WhatsAppAgent] that the loop reads and writes. *)
Record agent := Agent {
  processed_messages : gset pystr;
  processed_chats : gset pystr;
  chat_cooldowns : gmap pystr Q;
  last_scan_time : Q;
  scan_count : Z;
  known_contacts : gset pystr;
  busy_message_sent : gset pystr;
}.

(** [__init__], entered at clock reading [now]. *)
Definition init (now : Q) : agent :=
  Agent ∅ ∅ ∅ now 0 ∅ ∅.

Definition MESSAGE_COOLDOWN : Q := 15%Q.
Definition SCAN_COOLDOWN : Q := 5%Q.

Definition busy_reply : pystr := lit "Hi, Akash is busy.".

Definition fallback_reply : pystr :=
  lit "I'm here to help! What do you need? " ++ [128522].

Definition system_prompt : pystr :=
  lit "You are Akash's AI assistant. " ++
  lit "Respond naturally and helpfully in 1-2 sentences max. " ++
  lit "Be conversational, friendly, and use emojis appropriately like a human would. " ++
  lit "Use casual language, contractions, and chat like you're texting a friend. " ++
  lit "Do not mention that Akash is busy - just respond to their message naturally.".

Definition user_prompt (message : pystr) : pystr :=
  lit "Someone sent: '" ++ message ++ lit "'. Respond appropriately.".

(** [ai_signatures] of [is_message_from_user]. *)
Definition ai_signatures : list pystr :=
  [lit "Hey! Akash is busy right now, but I'm his AI assistant";
   lit "I'm Akash's AI assistant";
   lit "Hi! Akash is busy right now - I'm his AI assistant";
   lit "I'm here to help! What do you need?";
   [129302]].

(** [ai_indicators] of [get_latest_incoming_message]. *)
Definition ai_indicators : list pystr :=
  [lit "Hey! Akash is busy right now, but I'm his AI assistant";
   lit "I'm Akash's AI assistant";
   [129302];
   lit "AI assistant"].

Definition exclude_words : list pystr :=
  [lit "online"; lit "last seen"; lit "typing"; lit "unread"; lit "new message"].

(** *** What the browser shows *)

(** An element that carries a name: its [title] attribute ([None] when the
    attribute is absent) and its text. *)
Record name_elem := NameElem {
  el_title : option pystr;
  el_text : pystr;
}.

(** A row of the chat list, as the outcomes of the probes that
    [scan_for_unread_chats] and [get_chat_name_from_element] make on it, in
    the order of the calls.  [None] is a raised exception. *)
Record chat_row := ChatRow {
  row_displayed : option bool;
  row_height : option Z;
  row_location : option (Z * Z);
  (* one entry per selector of UNREAD_INDICATORS: displayed, width *)
  row_unread : list (option (bool * Z));
  (* one entry per name selector: the elements found *)
  row_names : list (option (list (option name_elem)));
  (* chat.location and time.time() of the fallback name *)
  row_name_location : option (Z * Z);
  row_name_clock : Q;
}.

(** The outcomes of one iteration's calls to the browser, the clock, the
    clipboard and the model. *)
Record env := Env {
  e_scan_clock : Q;
  (* one entry per selector of CHAT_LIST_SELECTORS *)
  e_chat_lists : list (option (list chat_row));
  (* the three click methods: true when the method did not raise *)
  e_click : list bool;
  (* one entry per selector of CHAT_HEADER_SELECTORS *)
  e_header : list (option name_elem);
  e_header_clock : Q;
  (* one entry per selector of INCOMING_MSG_SELECTORS: texts of the elements *)
  e_incoming : list (option (list (option pystr)));
  e_id_clock : Q;
  (* chat.completions.create on (system, user): the content of the first
     choice, or None when the call or the access to the content raises *)
  e_client : pystr → pystr → option pystr;
  e_send : bool;
  e_send_clock : Q;
  (* list(self.processed_messages): the iteration order of the set *)
  e_messages_order : list pystr;
  e_clean_clock : Q;
}.

(** What an iteration of the loop did. *)
Inductive outcome :=
  | Idle
  | ClickFailed (chat_name : pystr)
  | NoMessage (chat_name : pystr)
  | OwnMessage (chat_name : pystr)
  | AlreadyProcessed (message_id : pystr)
  | ProcessingError (chat_name : pystr)
  | Replied (chat_name reply : pystr)
  | SendFailed (chat_name reply : pystr).

(** Has the iteration called [send_message]? *)
Definition send_attempted (o : outcome) : bool :=
  match o with
  | Replied _ _ | SendFailed _ _ => true
  | _ => false
  end.

Section Agent.

(** [str.lower], over all of Unicode. *)
Variable lower : pystr → pystr.

(** *** Contact ledger *)

Definition is_new_contact (st : agent) (chat_name : pystr) : bool :=
  let clean_chat_name := lower (strip chat_name) in
  if bool_decide (clean_chat_name ∈ known_contacts st) then false
  else if startswith clean_chat_name (lit "chat_")
          || startswith clean_chat_name (lit "unknown_") then false
  else true.

Definition mark_contact_as_known (st : agent) (chat_name : pystr) : agent :=
  let clean_chat_name := lower (strip chat_name) in
  Agent (processed_messages st) (processed_chats st) (chat_cooldowns st)
        (last_scan_time st) (scan_count st)
        ({[clean_chat_name]} ∪ known_contacts st) (busy_message_sent st).

Definition has_busy_message_been_sent (st : agent) (chat_name : pystr) : bool :=
  let clean_chat_name := lower (strip chat_name) in
  bool_decide (clean_chat_name ∈ busy_message_sent st).

Definition mark_busy_message_sent (st : agent) (chat_name : pystr) : agent :=
  let clean_chat_name := lower (strip chat_name) in
  Agent (processed_messages st) (processed_chats st) (chat_cooldowns st)
        (last_scan_time st) (scan_count st)
        (known_contacts st) ({[clean_chat_name]} ∪ busy_message_sent st).

(** *** Responder *)

Definition generate_ai_response (st : agent) (client : pystr → pystr → option pystr)
    (message chat_name : pystr) : agent * pystr :=
  let is_new := is_new_contact st chat_name in
  let busy_sent := has_busy_message_been_sent st chat_name in
  if is_new && negb busy_sent then
    let st := mark_busy_message_sent st chat_name in
    let st := mark_contact_as_known st chat_name in
    (st, busy_reply)
  else
    let st := mark_contact_as_known st chat_name in
    match client system_prompt (user_prompt message) with
    | Some content => (st, strip content)
    | None =>
        (* except Exception *)
        if is_new_contact st chat_name
           && negb (has_busy_message_been_sent st chat_name) then
          let st := mark_busy_message_sent st chat_name in
          let st := mark_contact_as_known st chat_name in
          (st, busy_reply)
        else
          (mark_contact_as_known st chat_name, fallback_reply)
    end.

(** *** Own-message filters *)

Definition is_message_from_user (message_text : pystr) : bool :=
  if existsb (λ signature, str_in signature message_text) ai_signatures then false
  else if (120 <? length message_text)%nat then false
  else true.

(** The texts gathered from one selector's elements; the flag tells that an
    element raised, which ends the selector. *)
Fixpoint gather_texts (elems : list (option pystr)) (acc : list pystr)
    : list pystr * bool :=
  match elems with
  | [] => (acc, false)
  | None :: _ => (acc, true)
  | Some text :: rest =>
      let msg_text := strip text in
      gather_texts rest (if truthy msg_text then acc ++ [msg_text] else acc)
  end.

Fixpoint incoming_messages (probes : list (option (list (option pystr))))
    (acc : list pystr) : list pystr :=
  match probes with
  | [] => acc
  | None :: rest => incoming_messages rest acc
  | Some elems :: rest =>
      let '(acc, raised) := gather_texts elems acc in
      if raised then incoming_messages rest acc
      else match acc with
           | [] => incoming_messages rest acc
           | _ :: _ => acc
           end
  end.

Definition get_latest_incoming_message
    (probes : list (option (list (option pystr)))) : option pystr :=
  match last (incoming_messages probes []) with
  | None => None
  | Some latest_message =>
      if existsb (λ indicator, str_in indicator latest_message) ai_indicators
      then None
      else if (100 <? length latest_message)%nat
              && str_in (lit "assistant") (lower latest_message) then None
      else Some latest_message
  end.

(** *** Message fingerprint *)

Definition create_message_id (now : Q) (message chat_name : pystr) : option pystr :=
  let timestamp_group := py_int now `div` 60 in
  bytes ← encode (chat_name ++ lit "::" ++ take 50 message ++ lit "::"
                  ++ str_of_int timestamp_group);
  Some (take 12 (MD5.hexdigest bytes)).

(** *** Names *)

(** [elem.get_attribute('title') or elem.text] *)
Definition elem_name (e : name_elem) : pystr :=
  match el_title e with
  | Some (c :: t) => c :: t
  | _ => el_text e
  end.

Fixpoint name_from_elems (elems : list (option name_elem)) : option pystr :=
  match elems with
  | [] => None
  | None :: _ => None
  | Some e :: rest =>
      let name := elem_name e in
      if truthy name && truthy (strip name) && (2 <? length (strip name))%nat
         && negb (existsb (λ word, str_in word (lower name)) exclude_words)
      then Some (take 50 (strip name))
      else name_from_elems rest
  end.

Fixpoint name_from_selectors (probes : list (option (list (option name_elem))))
    : option pystr :=
  match probes with
  | [] => None
  | None :: rest => name_from_selectors rest
  | Some elems :: rest =>
      match name_from_elems elems with
      | Some name => Some name
      | None => name_from_selectors rest
      end
  end.

Definition get_chat_name_from_element (chat : chat_row) : pystr :=
  match name_from_selectors (row_names chat) with
  | Some name => name
  | None =>
      match row_name_location chat with
      | Some (x, y) => lit "Chat_" ++ str_of_int x ++ lit "_" ++ str_of_int y
      | None => lit "Chat_" ++ str_of_int (py_int (row_name_clock chat))
      end
  end.

Fixpoint header_name (probes : list (option name_elem)) : option pystr :=
  match probes with
  | [] => None
  | None :: rest => header_name rest
  | Some e :: rest =>
      let name := elem_name e in
      if truthy name && truthy (strip name) then Some (strip name)
      else header_name rest
  end.

Definition get_current_chat_name (probes : list (option name_elem)) (now : Q) : pystr :=
  match header_name probes with
  | Some name => name
  | None => lit "Chat_" ++ str_of_int (py_int now)
  end.

(** *** Chat scanner *)

(** The rows of the first selector that finds any. *)
Fixpoint all_chats (probes : list (option (list chat_row))) : list chat_row :=
  match probes with
  | [] => []
  | None :: rest => all_chats rest
  | Some [] :: rest => all_chats rest
  | Some (c :: chats) :: _ => c :: chats
  end.

Definition has_unread (chat : chat_row) : bool :=
  existsb (λ probe, match probe with
                    | Some (displayed, width) => displayed && (0 <? width)
                    | None => false
                    end) (row_unread chat).

(** The body of the loop over the rows: [Some] when the row is selected,
    [None] for each [continue] (the handler of the row's [try] included). *)
Definition check_row (st : agent) (current_time : Q) (chat : chat_row)
    : option (pystr * pystr) :=
  displayed ← row_displayed chat;
  if negb displayed then None else
  height ← row_height chat;
  if height <=? 10 then None else
  chat_location ← row_location chat;
  let chat_id := str_of_int chat_location.1 ++ lit "_" ++ str_of_int chat_location.2 in
  if bool_decide (chat_id ∈ processed_chats st) then None else
  if has_unread chat then
    let chat_name := get_chat_name_from_element chat in
    match chat_cooldowns st !! chat_name with
    | Some timestamp =>
        if Qltb (current_time - timestamp) MESSAGE_COOLDOWN then None
        else Some (chat_name, chat_id)
    | None => Some (chat_name, chat_id)
    end
  else None.

Definition add_processed_chat (st : agent) (chat_id : pystr) : agent :=
  Agent (processed_messages st) ({[chat_id]} ∪ processed_chats st) (chat_cooldowns st)
        (last_scan_time st) (scan_count st) (known_contacts st) (busy_message_sent st).

Definition clear_processed_chats (st : agent) : agent :=
  Agent (processed_messages st) ∅ (chat_cooldowns st)
        (last_scan_time st) (scan_count st) (known_contacts st) (busy_message_sent st).

Definition stamp_scan (st : agent) (current_time : Q) : agent :=
  Agent (processed_messages st) (processed_chats st) (chat_cooldowns st)
        current_time (scan_count st + 1) (known_contacts st) (busy_message_sent st).

Fixpoint scan_rows (st : agent) (current_time : Q) (rows : list chat_row)
    : agent * list (chat_row * pystr * pystr) :=
  match rows with
  | [] => (st, [])
  | chat :: rest =>
      match check_row st current_time chat with
      | Some (chat_name, chat_id) =>
          (add_processed_chat st chat_id, [(chat, chat_name, chat_id)])
      | None => scan_rows st current_time rest
      end
  end.

Definition scan_for_unread_chats (st : agent) (current_time : Q)
    (probes : list (option (list chat_row)))
    : agent * list (chat_row * pystr * pystr) :=
  if Qltb (current_time - last_scan_time st) SCAN_COOLDOWN then (st, [])
  else
    let st := stamp_scan st current_time in
    match all_chats probes with
    | [] => (st, [])
    | c :: chats =>
        let '(st, unread_chats) := scan_rows st current_time (take 20 (c :: chats)) in
        let st := if scan_count st `mod` 10 =? 0 then clear_processed_chats st else st in
        (st, unread_chats)
    end.

(** *** Monitoring loop *)

Definition click_chat_element (methods : list bool) : bool :=
  existsb id methods.

(** The success branch of [send_message]: the fingerprint and the cooldown. *)
Definition record_reply (st : agent) (message_id actual_chat_name : pystr) (now : Q)
    : agent :=
  Agent ({[message_id]} ∪ processed_messages st) (processed_chats st)
        (<[actual_chat_name := now]> (chat_cooldowns st))
        (last_scan_time st) (scan_count st) (known_contacts st) (busy_message_sent st).

(** "Cleanup old data periodically": [order] is [list(self.processed_messages)]. *)
Definition cleanup_messages (order : list pystr) (messages : gset pystr) : gset pystr :=
  if (100 <? size messages)%nat then messages ∖ list_to_set (take 50 order)
  else messages.

(** "Clean old cooldowns" *)
Definition cleanup_cooldowns (current_time : Q) (cooldowns : gmap pystr Q)
    : gmap pystr Q :=
  filter (λ entry, Qltb (MESSAGE_COOLDOWN * 2) (current_time - entry.2) = false)
         cooldowns.

Definition housekeeping (st : agent) (e : env) : agent :=
  Agent (cleanup_messages (e_messages_order e) (processed_messages st))
        (processed_chats st)
        (cleanup_cooldowns (e_clean_clock e) (chat_cooldowns st))
        (last_scan_time st) (scan_count st) (known_contacts st) (busy_message_sent st).

(** The part of an iteration that deals with an opened chat, from reading the
    header to sending the reply.  The flag tells whether the iteration goes
    on to the housekeeping ([false]: it left through [continue]). *)
Definition process_chat (st : agent) (e : env) : agent * outcome * bool :=
  let actual_chat_name := get_current_chat_name (e_header e) (e_header_clock e) in
  match get_latest_incoming_message (e_incoming e) with
  | Some latest_message =>
      if truthy latest_message && (0 <? length (strip latest_message))%nat then
        if negb (is_message_from_user latest_message) then
          (st, OwnMessage actual_chat_name, false)
        else
          match create_message_id (e_id_clock e) latest_message actual_chat_name with
          | None => (st, ProcessingError actual_chat_name, false)
          | Some message_id =>
              if bool_decide (message_id ∈ processed_messages st) then
                (st, AlreadyProcessed message_id, false)
              else
                let '(st, ai_reply) :=
                  generate_ai_response st (e_client e) latest_message actual_chat_name in
                if e_send e then
                  (record_reply st message_id actual_chat_name (e_send_clock e),
                   Replied actual_chat_name ai_reply, true)
                else
                  (st, SendFailed actual_chat_name ai_reply, true)
          end
      else (st, NoMessage actual_chat_name, true)
  | None => (st, NoMessage actual_chat_name, true)
  end.

(** An iteration of [main_monitoring_loop] up to its housekeeping; the
    flag is [false] when the iteration ends in [continue]. *)
Definition tick_body (st : agent) (e : env) : agent * outcome * bool :=
  let '(st, unread_chats) :=
    scan_for_unread_chats st (e_scan_clock e) (e_chat_lists e) in
  match unread_chats with
  | (chat_element, chat_name, chat_id) :: _ =>
      if negb (click_chat_element (e_click e))
      then (st, ClickFailed chat_name, false)
      else process_chat st e
  | [] => (st, Idle, true)
  end.

(** One iteration of [main_monitoring_loop]. *)
Definition tick (st : agent) (e : env) : agent * outcome :=
  let '(st, o, cont) := tick_body st e in
  if cont then (housekeeping st e, o) else (st, o).

(** The loop, over the environments of its successive iterations. *)
Fixpoint run (st : agent) (es : list env) : agent :=
  match es with
  | [] => st
  | e :: es => run (tick st e).1 es
  end.

(** Along a run, each enumeration of the fingerprint set that the
    housekeeping uses, which it does when the set holds more than 100
    fingerprints, is an enumeration of that set. *)
Fixpoint evictions_legal (st : agent) (es : list env) : Prop :=
  match es with
  | [] => True
  | e :: es =>
      ((100 < size (processed_messages (tick_body st e).1.1))%nat →
       e_messages_order e
         ≡ₚ elements (processed_messages (tick_body st e).1.1))
      ∧ evictions_legal (tick st e).1 es
  end.

(** Along a run the housekeeping evicts no fingerprint: each iteration that
    reaches it does so with at most 100 fingerprints on record. *)
Fixpoint no_eviction (st : agent) (es : list env) : Prop :=
  match es with
  | [] => True
  | e :: es =>
      ((tick_body st e).2 = true →
       (size (processed_messages (tick_body st e).1.1) ≤ 100)%nat)
      ∧ no_eviction (tick st e).1 es
  end.

End Agent.

(** ** Reference descriptions *)

(** What the responder returns whenever it does not take the busy branch:
    the model's text, stripped, or the fixed fallback when the call fails. *)
Definition generated_or_fallback (client : pystr → pystr → option pystr)
    (message : pystr) : pystr :=
  match client system_prompt (user_prompt message) with
  | Some content => strip content
  | None => fallback_reply
  end.

(** The own-message filter as the specification words it: a text is rejected
    exactly when a signature occurs in it, or it is longer than 120 characters
    and contains the word assistant. *)
Definition spec_rejects (message_text : pystr) : bool :=
  existsb (λ signature, str_in signature message_text) ai_signatures
  || ((120 <? length message_text)%nat && str_in (lit "assistant") message_text).

(** The readings of the clock that an iteration makes for the cooldown
    ledger lie in the window of [MESSAGE_COOLDOWN] seconds that opens at
    [t0]. *)
Definition clock_within (t0 : Q) (e : env) : Prop :=
  (t0 <= e_send_clock e)%Q ∧ (e_clean_clock e - t0 < MESSAGE_COOLDOWN)%Q.

(** ** Concrete browser sessions, used to run the model *)

Module Session.

(** A visible row at [(x, y)] whose title is [name], with or without an
    unread badge. *)
Definition row (name : pystr) (x y : Z) (unread : bool) : chat_row :=
  ChatRow (Some true) (Some 72) (Some (x, y)) [Some (unread, 20)]
          [Some [Some (NameElem (Some name) [])]] (Some (x, y)) 0.

(** A model that answers every prompt with [text]. *)
Definition answers (text : pystr) : pystr → pystr → option pystr :=
  λ _ _, Some text.

(** A model whose call raises. *)
Definition unreachable_model : pystr → pystr → option pystr :=
  λ _ _, None.

(** An iteration at clock reading [t] in which the chat list shows [rows];
    the chat that opens has [header] as its title and [texts] as its incoming
    messages; [send] is the result of [send_message]; [order] is the
    iteration order of the fingerprint set. *)
Definition visit (t : Q) (rows : list chat_row) (header : pystr)
    (texts : list pystr) (client : pystr → pystr → option pystr)
    (send : bool) (order : list pystr) : env :=
  Env t [Some rows] [true] [Some (NameElem (Some header) [])] t
      [Some (Some <$> texts)] t client send t order t.

(** An iteration in which no selector finds the chat list. *)
Definition blank (t : Q) : env :=
  Env t [Some []; Some []; Some []; Some []] [] [] t [] t unreachable_model false t [] t.

Definition Maria : pystr := lit "Maria".

(** Maria writes "hi" and the reply goes out. *)
Definition maria_hi (t : Q) (y : Z) (send : bool) (order : list pystr) : env :=
  visit t [row Maria 0 y true] Maria [lit "hi"] (answers (lit "Yep, what's up?"))
        send order.

(** The [n]-th of a series of notes that Maria writes 20 seconds apart,
    each answered; her row moves down the list and comes back to the top
    every tenth time. *)
Definition note (n : nat) : env :=
  visit (20 * inject_Z (Z.of_nat (S n)))%Q
        [row Maria 0 (72 * Z.of_nat (S (n mod 10))) true] Maria
        [lit "note " ++ str_of_int (Z.of_nat n)]
        (answers (lit "Hey!")) true [].

(** [n] such iterations, from the [start]-th on. *)
Definition notes (start n : nat) : list env := note <$> seq start n.

(** A hundred replies: the fingerprint ledger is full. *)
Definition hundred_replies : list env := notes 0 100.

(** Nine scans: a reply to Maria, whose row stays at (0, 72), then eight
    scans that find the chat list with nothing unread. *)
Definition nine_scans : list env :=
  maria_hi 5 72 true [] ::
  ((λ n, visit (5 * inject_Z (Z.of_nat n))%Q [row Maria 0 72 false] Maria []
               unreachable_model false []) <$> seq 2 8).

(** The fingerprint of Maria's "hi" in minute 33 of the clock. *)
Definition maria_id : pystr := lit "1bce1e890a95".

(** The agent after 25, 50, 75 and all of the hundred replies, evaluated. *)
Definition ledger_25 : agent :=
  Eval vm_compute in run ascii_lower (init 0) (notes 0 25).

Definition ledger_50 : agent :=
  Eval vm_compute in run ascii_lower ledger_25 (notes 25 25).

Definition ledger_75 : agent :=
  Eval vm_compute in run ascii_lower ledger_50 (notes 50 25).

Definition full_ledger : agent :=
  Eval vm_compute in run ascii_lower ledger_75 (notes 75 25).

(** Maria's "hi" is answered at second 2015; the set then holds 101
    fingerprints and is enumerated with the newest first. *)
Definition maria_first : env :=
  maria_hi 2015 72 true (maria_id :: elements (processed_messages full_ledger)).

(** Fifteen seconds later, in the same minute, her row is unread again with
    the same text. *)
Definition maria_again : env := maria_hi 2030 144 true [].

(** Maria writes again, and the model answers with the very sentence of the
    busy notice. *)
Definition maria_echo (t : Q) (y : Z) : env :=
  visit t [row Maria 0 y true] Maria [lit "are you there?"]
        (answers busy_reply) true [].

End Session.

(** ** Predicates used to state properties *)

(** A code point that UTF-8 can encode: in range and not a surrogate. *)
Definition is_scalar (c : Z) : bool :=
  (0 <=? c) && (c <? 1114112) && negb ((55296 <=? c) && (c <=? 57343)).

(** A lower-case hexadecimal digit. *)
Definition is_hex_digit (c : Z) : bool :=
  ((48 <=? c) && (c <=? 57)) || ((97 <=? c) && (c <=? 102)).

(** ** Waiting for the page *)

(** What one round of [wait_for_whatsapp] sees.  [None] is a raised
    exception; an element is given by the result of its [is_displayed]. *)
Record wait_probe := WaitProbe {
  (* the QR code: the elements found *)
  w_qr : option (list (option bool));
  (* the "keep me signed in" check box: false when the search raises; what
     is done with the box is inside a try of its own and changes nothing *)
  w_checkbox : bool;
  (* one entry per selector of CHAT_LIST_SELECTORS *)
  w_chat_lists : list (option (list (option bool)));
}.

(** [any(elem.is_displayed() for elem in elements)] *)
Fixpoint any_displayed (elements : list (option bool)) : option bool :=
  match elements with
  | [] => Some false
  | None :: _ => None
  | Some true :: _ => Some true
  | Some false :: rest => any_displayed rest
  end.

(** The body of the [while] loop: [true] when it returns [True], [false]
    when the round ends, through [continue], the end of the body or the
    handler, each of which sleeps [check_interval] and adds it to
    [elapsed_time]. *)
Definition wait_round (p : wait_probe) : bool :=
  match w_qr p with
  | None => false
  | Some (None :: _) => false
  | Some (Some true :: _) => false
  | Some _ =>
      if w_checkbox p then
        existsb (λ probe, match probe with
                          | Some elements =>
                              match any_displayed elements with
                              | Some true => true
                              | _ => false
                              end
                          | None => false
                          end) (w_chat_lists p)
      else false
  end.

(** The loop, from round [i] on; the result comes with the seconds slept. *)
Fixpoint wait_loop (fuel : nat) (elapsed_time : Z) (probes : nat → wait_probe)
    (i : nat) : option (bool * Z) :=
  if elapsed_time <? 120 then
    match fuel with
    | O => None
    | S fuel =>
        if wait_round (probes i) then Some (true, elapsed_time + 3)
        else wait_loop fuel (elapsed_time + 5) probes (S i)
    end
  else Some (false, elapsed_time).

(** [wait_for_whatsapp]; [loaded] tells that [driver.get] did not raise. *)
Definition wait_for_whatsapp (loaded : bool) (probes : nat → wait_probe)
    : option (bool * Z) :=
  if loaded then wait_loop 24 0 probes 0 else Some (false, 0).

(** ** More concrete sessions *)

Module Cases.

Import Session.

(** A contact whose name has 51 characters. *)
Definition long_name : pystr := replicate 51 97.

(** Maria's row is opened but no header selector finds an element. *)
Definition nameless : env :=
  Env 5 [Some [row Maria 0 72 true]] [true] [None; None; None] 5
      [Some [Some (lit "hi")]] 5 (answers (lit "Yep, what's up?")) true 5 [] 5.

(** The header of the opened chat holds a lone surrogate. *)
Definition garbled : env :=
  visit 5 [row Maria 0 72 true] [77; 55357] [lit "hi"]
        (answers (lit "Yep, what's up?")) true [].

(** An idle iteration at second [t]: Maria's row shows nothing unread. *)
Definition quiet (t : Q) : env :=
  visit t [row Maria 0 72 false] Maria [] unreachable_model false [].

(** A row with two candidate names: a status line and the contact. *)
Definition status_row : chat_row :=
  ChatRow (Some true) (Some 72) (Some (0, 72)) [Some (true, 20)]
          [Some [Some (NameElem None (lit "last seen today"));
                 Some (NameElem (Some (lit " Maria ")) [])]]
          (Some (0, 72)) 0.

(** A row whose only candidate has the contact as its title and a status
    line as its text. *)
Definition titled_row : chat_row :=
  ChatRow (Some true) (Some 72) (Some (0, 72)) [Some (true, 20)]
          [Some [Some (NameElem (Some (lit "Maria")) (lit "online"))]]
          (Some (0, 72)) 0.

(** The page loads at the third round: a QR code first, then nothing, then
    the chat list. *)
Definition third_round (i : nat) : wait_probe :=
  match i with
  | 0%nat => WaitProbe (Some [Some true]) true [Some [Some true]]
  | 1%nat => WaitProbe (Some []) true [Some []; None]
  | _ => WaitProbe (Some []) true [Some []; Some [Some false; Some true]]
  end.

End Cases.

(** * Properties *)

(** ** The hash and the string primitives agree with CPython on samples *)

Example md5_empty : MD5.hexdigest [] = lit "d41d8cd98f00b204e9800998ecf8427e".
Proof. vm_compute. reflexivity. Qed.

Example md5_abc :
  MD5.hexdigest <$> encode (lit "abc")
  = Some (lit "900150983cd24fb0d6963f7d28e17f72").
Proof. vm_compute. reflexivity. Qed.

Example md5_two_blocks :
  MD5.hexdigest <$> encode (lit "The quick brown fox jumps over the lazy dogThe quick brown fox jumps over the lazy dogThe quick brown fox jumps over the lazy dog")
  = Some (lit "4e67db4a7a406b0cfdadd887cde7888e").
Proof. vm_compute. reflexivity. Qed.

Example md5_non_ascii :
  MD5.hexdigest <$> encode [233; 128522]
  = Some (lit "8863ced281e31fb3a9e53294523ae930").
Proof. vm_compute. reflexivity. Qed.

Example encode_surrogate : encode [104; 55357] = None.
Proof. reflexivity. Qed.

Example str_of_int_samples :
  str_of_int 28000000 = lit "28000000" ∧ str_of_int 0 = lit "0"
  ∧ str_of_int (-5) = lit "-5".
Proof. vm_compute. done. Qed.

Example strip_sample : strip (lit "  Maria ") = lit "Maria".
Proof. reflexivity. Qed.

Example fingerprint_sample :
  create_message_id 70 (lit "hi") (lit "C3") = Some (lit "fbd6b43b8921").
Proof. vm_compute. reflexivity. Qed.

(** ** Comparisons of clock readings *)

Lemma Qltb_lt (a b : Q) : Qltb a b = true ↔ (a < b)%Q.
Proof.
  unfold Qltb. rewrite negb_true_iff. split.
  - intros H. apply Qnot_le_lt. intros Hle.
    apply Qle_bool_iff in Hle. congruence.
  - intros H. destruct (Qle_bool b a) eqn:E; [|done].
    apply Qle_bool_iff in E. apply Qlt_not_le in H. contradiction.
Qed.

Lemma Qltb_ge (a b : Q) : Qltb a b = false ↔ (b <= a)%Q.
Proof.
  unfold Qltb. rewrite negb_false_iff. apply Qle_bool_iff.
Qed.

(** ** Substrings *)

Lemma startswith_prefix (s p : pystr) : startswith s p = true ↔ ∃ t, s = p ++ t.
Proof.
  revert s. induction p as [|c p IH]; intros s; simpl.
  - split; [intros _; by exists s | by destruct s].
  - destruct s as [|d s]; simpl.
    + split; [done|]. intros [t Ht]. discriminate.
    + rewrite andb_true_iff, Z.eqb_eq, IH. split.
      * intros [-> [t ->]]. eauto.
      * intros [t Ht]. injection Ht as -> ->. eauto.
Qed.

Lemma str_in_infix (sub s : pystr) :
  str_in sub s = true ↔ ∃ pre post, s = pre ++ sub ++ post.
Proof.
  induction s as [|d s IH]; cbn [str_in].
  - rewrite orb_false_r, startswith_prefix. split.
    + intros [t Ht]. exists [], t. done.
    + intros (pre & post & H). symmetry in H.
      apply app_eq_nil in H as [-> H]. apply app_eq_nil in H as [-> ->].
      exists []. done.
  - rewrite orb_true_iff, startswith_prefix, IH. split.
    + intros [[t Ht]|(pre & post & ->)].
      * exists [], t. done.
      * exists (d :: pre), post. done.
    + intros (pre & post & H). destruct pre as [|c pre]; simpl in H.
      * left. eauto.
      * right. injection H as -> ->. eauto.
Qed.

(** ** The responder *)

Section Responder.

Variable lower : pystr → pystr.

Implicit Types (st : agent) (client : pystr → pystr → option pystr).
Implicit Types (message chat_name : pystr).

Lemma is_new_contact_known st chat_name :
  lower (strip chat_name) ∈ known_contacts st →
  is_new_contact lower st chat_name = false.
Proof.
  intros H. unfold is_new_contact. by rewrite bool_decide_eq_true_2.
Qed.

Lemma is_new_contact_after_mark st chat_name :
  is_new_contact lower (mark_contact_as_known lower st chat_name) chat_name = false.
Proof.
  apply is_new_contact_known. simpl. set_solver.
Qed.

(** Outside the busy branch the reply is generated or the fallback, the
    contact becomes known and the busy ledger is left alone. *)
Lemma generate_not_busy_branch st client message chat_name :
  is_new_contact lower st chat_name
    && negb (has_busy_message_been_sent lower st chat_name) = false →
  generate_ai_response lower st client message chat_name
  = (mark_contact_as_known lower st chat_name,
     generated_or_fallback client message).
Proof.
  intros H. unfold generate_ai_response, generated_or_fallback.
  rewrite H. destruct (client _ _) as [content|]; [done|].
  rewrite is_new_contact_after_mark. simpl.
  f_equal. unfold mark_contact_as_known; simpl. f_equal.
  by rewrite (assoc_L (∪)), (idemp_L (∪)).
Qed.

Lemma generate_busy_branch st client message chat_name :
  is_new_contact lower st chat_name
    && negb (has_busy_message_been_sent lower st chat_name) = true →
  generate_ai_response lower st client message chat_name
  = (mark_contact_as_known lower
       (mark_busy_message_sent lower st chat_name) chat_name, busy_reply).
Proof.
  intros H. unfold generate_ai_response. by rewrite H.
Qed.

(** The two contact ledgers only grow, and the responder touches nothing
    else. *)
Lemma generate_frame st client message chat_name :
  let st' := (generate_ai_response lower st client message chat_name).1 in
  known_contacts st ⊆ known_contacts st'
  ∧ busy_message_sent st ⊆ busy_message_sent st'
  ∧ lower (strip chat_name) ∈ known_contacts st'
  ∧ processed_messages st' = processed_messages st
  ∧ processed_chats st' = processed_chats st
  ∧ chat_cooldowns st' = chat_cooldowns st
  ∧ last_scan_time st' = last_scan_time st
  ∧ scan_count st' = scan_count st.
Proof.
  destruct (is_new_contact lower st chat_name
            && negb (has_busy_message_been_sent lower st chat_name)) eqn:E.
  - rewrite generate_busy_branch by done. simpl. set_solver.
  - rewrite generate_not_busy_branch by done. simpl. set_solver.
Qed.

Lemma fallback_is_not_busy : fallback_reply ≠ busy_reply.
Proof. discriminate. Qed.

(** C1.  A contact whose normalised name is in neither ledger and is not a
    placeholder gets exactly the busy notice, whatever the message, and is
    in both ledgers afterwards. *)
Theorem first_message_gets_busy_notice st client message chat_name :
  lower (strip chat_name) ∉ known_contacts st →
  lower (strip chat_name) ∉ busy_message_sent st →
  startswith (lower (strip chat_name)) (lit "chat_") = false →
  startswith (lower (strip chat_name)) (lit "unknown_") = false →
  let r := generate_ai_response lower st client message chat_name in
  r.2 = busy_reply
  ∧ lower (strip chat_name) ∈ known_contacts r.1
  ∧ lower (strip chat_name) ∈ busy_message_sent r.1.
Proof.
  intros Hk Hb Hc Hu. cbv zeta.
  rewrite generate_busy_branch.
  - simpl. set_solver.
  - unfold is_new_contact, has_busy_message_been_sent.
    rewrite !bool_decide_eq_false_2 by done. by rewrite Hc, Hu.
Qed.

(** C9.  A placeholder name is never a new contact, so its first message is
    answered outside the busy branch, even when the name is unknown. *)
Theorem placeholder_is_never_new st client message chat_name :
  startswith (lower (strip chat_name)) (lit "chat_") = true
  ∨ startswith (lower (strip chat_name)) (lit "unknown_") = true →
  is_new_contact lower st chat_name = false
  ∧ generate_ai_response lower st client message chat_name
    = (mark_contact_as_known lower st chat_name,
       generated_or_fallback client message)
  ∧ busy_message_sent
      (generate_ai_response lower st client message chat_name).1
    = busy_message_sent st.
Proof.
  intros H.
  assert (Hnew : is_new_contact lower st chat_name = false).
  { unfold is_new_contact. case_bool_decide; [done|].
    destruct H as [-> | ->]; [done|]. by rewrite orb_true_r. }
  split; [done|].
  rewrite generate_not_busy_branch by (by rewrite Hnew). done.
Qed.

End Responder.

(** ** The own-message filters *)

(** C5, as the code has it.  [is_message_from_user] rejects a text exactly
    when it contains one of the five signatures or is longer than 120
    characters, whether or not it contains "assistant". *)
Theorem is_message_from_user_rejects (message_text : pystr) :
  is_message_from_user message_text = false
  ↔ (∃ signature, signature ∈ ai_signatures
                  ∧ str_in signature message_text = true)
    ∨ (120 < length message_text)%nat.
Proof.
  unfold is_message_from_user.
  destruct (existsb _ ai_signatures) eqn:E.
  - split; [|done]. intros _. left.
    apply existsb_exists in E as (sig & Hin & Hsig).
    exists sig. by rewrite list_elem_of_In.
  - destruct (120 <? length message_text)%nat eqn:L.
    + apply Nat.ltb_lt in L. split; [|done]. by right.
    + apply Nat.ltb_ge in L. split; [done|].
      intros [(sig & Hin & Hsig) | Hlen]; [|lia].
      assert (existsb (λ s, str_in s message_text) ai_signatures = true).
      { apply existsb_exists. exists sig. by rewrite <- list_elem_of_In. }
      congruence.
Qed.

(** What [get_latest_incoming_message] does with the newest text. *)
Lemma get_latest_incoming_message_filter lower probes latest :
  last (incoming_messages probes []) = Some latest →
  get_latest_incoming_message lower probes
  = if existsb (λ indicator, str_in indicator latest) ai_indicators
       || ((100 <? length latest)%nat
           && str_in (lit "assistant") (lower latest))
    then None else Some latest.
Proof.
  intros H. unfold get_latest_incoming_message. rewrite H.
  by destruct (existsb _ ai_indicators), (_ && _).
Qed.

(** C10.  The agent's own busy notice passes both filters: it is returned
    as the latest incoming message and classified as a user's message. *)
Theorem busy_notice_passes_own_message_filter :
  is_message_from_user busy_reply = true
  ∧ (length busy_reply ≤ 120)%nat
  ∧ existsb (λ signature, str_in signature busy_reply) ai_signatures = false
  ∧ ∀ lower earlier,
      get_latest_incoming_message lower [Some (Some <$> (earlier ++ [busy_reply]))]
      = Some busy_reply.
Proof.
  split; [reflexivity|]. split; [vm_compute; lia|]. split; [reflexivity|].
  intros lower earlier.
  rewrite (get_latest_incoming_message_filter lower _ busy_reply); [done|].
  assert (G : ∀ texts acc,
             gather_texts (Some <$> texts) acc
             = (acc ++ filter (λ t, truthy t = true) (strip <$> texts), false)).
  { induction texts as [|t texts IH]; intros acc.
    - simpl. by rewrite app_nil_r.
    - cbn [fmap list_fmap gather_texts]. rewrite IH, filter_cons.
      destruct (truthy (strip t)).
      + rewrite decide_True by done. by rewrite <- app_assoc.
      + by rewrite decide_False by done. }
  simpl. rewrite G. simpl.
  rewrite fmap_app, filter_app. simpl.
  change (strip busy_reply) with busy_reply.
  rewrite filter_cons, decide_True by done. rewrite filter_nil.
  destruct (filter _ (strip <$> earlier) ++ [busy_reply]) eqn:E.
  - by apply app_eq_nil in E as [_ ?].
  - rewrite <- E. by rewrite last_snoc.
Qed.

(** When the busy notice is the newest incoming text of the opened chat,
    the iteration treats it as a user's message: it goes on to the
    fingerprint and, if that is fresh, to a reply. *)
Lemma busy_notice_is_processed lower (st : agent) (e : env) :
  last (incoming_messages (e_incoming e) []) = Some busy_reply →
  match (process_chat lower st e).1.2 with
  | OwnMessage _ | NoMessage _ => False
  | _ => True
  end.
Proof.
  intros H. unfold process_chat.
  rewrite (get_latest_incoming_message_filter lower _ busy_reply H).
  change (existsb (λ i, str_in i busy_reply) ai_indicators) with false.
  change (100 <? length busy_reply)%nat with false. simpl orb. cbv iota.
  change (truthy busy_reply && (0 <? length (strip busy_reply))%nat) with true.
  change (is_message_from_user busy_reply) with true. cbv iota. simpl negb.
  cbv iota.
  destruct (create_message_id _ _ _) as [id|]; [|done].
  case_bool_decide; [done|].
  destruct (generate_ai_response _ _ _ _ _) as [st' reply].
  by destruct (e_send e).
Qed.

(** ** Housekeeping *)

(** No eviction up to 100 fingerprints. *)
Lemma cleanup_messages_small (order : list pystr) (messages : gset pystr) :
  (size messages ≤ 100)%nat → cleanup_messages order messages = messages.
Proof.
  intros H. unfold cleanup_messages.
  destruct (100 <? size messages)%nat eqn:E; [|done].
  apply Nat.ltb_lt in E. lia.
Qed.

Lemma cleanup_messages_subseteq (order : list pystr) (messages : gset pystr) :
  cleanup_messages order messages ⊆ messages.
Proof.
  unfold cleanup_messages. destruct (100 <? size messages)%nat; [|done].
  apply subseteq_difference_l. done.
Qed.

(** Above 100 fingerprints, a legal enumeration loses its first 50. *)
Lemma cleanup_messages_size (order : list pystr) (messages : gset pystr) :
  (100 < size messages)%nat →
  order ≡ₚ elements messages →
  (size (cleanup_messages order messages) = size messages - 50)%nat.
Proof.
  intros Hsize Hperm.
  assert (Hlen : length order = size messages).
  { by rewrite Hperm. }
  assert (Hnodup : NoDup (take 50 order)).
  { eapply sublist_NoDup; [|apply sublist_take].
    rewrite Hperm. apply NoDup_elements. }
  assert (Hsub : list_to_set (take 50 order) ⊆ messages).
  { intros x Hx. apply elem_of_list_to_set in Hx.
    apply subseteq_take in Hx. rewrite Hperm in Hx.
    by apply elem_of_elements in Hx. }
  unfold cleanup_messages.
  apply Nat.ltb_lt in Hsize as ->.
  rewrite size_difference by done.
  rewrite size_list_to_set by done.
  rewrite length_take. lia.
Qed.

Lemma cleanup_cooldowns_lookup (now : Q) (cooldowns : gmap pystr Q) c t :
  cooldowns !! c = Some t →
  (now - t <= 30)%Q →
  cleanup_cooldowns now cooldowns !! c = Some t.
Proof.
  intros Hc Ht. unfold cleanup_cooldowns.
  apply map_lookup_filter_Some. split; [done|]. simpl.
  apply Qltb_ge. unfold MESSAGE_COOLDOWN. lra.
Qed.

(** ** The scanner *)

Section Scanner.

Variable lower : pystr → pystr.

Implicit Types (st : agent) (e : env).

Lemma scan_rows_result st t rows :
  (scan_rows lower st t rows = (st, []))
  ∨ ∃ chat chat_name chat_id,
      chat ∈ rows
      ∧ check_row lower st t chat = Some (chat_name, chat_id)
      ∧ scan_rows lower st t rows
        = (add_processed_chat st chat_id, [(chat, chat_name, chat_id)]).
Proof.
  induction rows as [|chat rows IH]; simpl; [by left|].
  destruct (check_row lower st t chat) as [[name id]|] eqn:E.
  - right. exists chat, name, id. split; [left|done].
  - destruct IH as [IH | (c & n & i & Hin & Hc & IH)]; [by left|].
    right. exists c, n, i. split; [by right|done].
Qed.

(** A row is never selected under the name of a chat that is cooling down. *)
Lemma check_row_cooldown st t chat chat_name chat_id timestamp :
  check_row lower st t chat = Some (chat_name, chat_id) →
  chat_cooldowns st !! chat_name = Some timestamp →
  (MESSAGE_COOLDOWN <= t - timestamp)%Q.
Proof.
  unfold check_row. intros H Hc.
  destruct (row_displayed chat) as [[]|]; simpl in H; try done.
  destruct (row_height chat) as [h|]; simpl in H; try done.
  destruct (h <=? 10); try done.
  destruct (row_location chat) as [loc|]; simpl in H; try done.
  case_bool_decide; try done.
  destruct (has_unread chat); try done.
  destruct (chat_cooldowns st !! get_chat_name_from_element lower chat)
    as [ts|] eqn:E.
  - destruct (Qltb (t - ts) MESSAGE_COOLDOWN) eqn:L; [done|].
    injection H as <- <-. rewrite E in Hc. injection Hc as <-.
    by apply Qltb_ge.
  - injection H as <- <-. congruence.
Qed.

(** The scanner writes only its own three attributes. *)
Lemma scan_frame st t probes :
  let st' := (scan_for_unread_chats lower st t probes).1 in
  processed_messages st' = processed_messages st
  ∧ chat_cooldowns st' = chat_cooldowns st
  ∧ known_contacts st' = known_contacts st
  ∧ busy_message_sent st' = busy_message_sent st.
Proof.
  unfold scan_for_unread_chats.
  destruct (Qltb _ SCAN_COOLDOWN); [done|].
  destruct (all_chats probes) as [|c chats]; [done|].
  destruct (scan_rows_result (stamp_scan st t) t (take 20 (c :: chats)))
    as [-> | (? & ? & ? & _ & _ & ->)];
    simpl; by destruct (_ =? 0).
Qed.

Lemma scan_selected st t probes chat chat_name chat_id :
  (chat, chat_name, chat_id) ∈ (scan_for_unread_chats lower st t probes).2 →
  check_row lower (stamp_scan st t) t chat = Some (chat_name, chat_id).
Proof.
  unfold scan_for_unread_chats.
  destruct (Qltb _ SCAN_COOLDOWN); [by intros ?%elem_of_nil|].
  destruct (all_chats probes) as [|c chats]; [by intros ?%elem_of_nil|].
  destruct (scan_rows_result (stamp_scan st t) t (take 20 (c :: chats)))
    as [-> | (c' & n & i & _ & Hc & ->)]; simpl.
  - by intros ?%elem_of_nil.
  - intros Hin%list_elem_of_singleton. by injection Hin as -> -> ->.
Qed.

(** The scanner surfaces no row under the name of a chat whose cooldown
    entry is less than [MESSAGE_COOLDOWN] old. *)
Lemma scan_skips_cooling_chat st t probes c timestamp :
  chat_cooldowns st !! c = Some timestamp →
  (t - timestamp < MESSAGE_COOLDOWN)%Q →
  ∀ chat chat_name chat_id,
    (chat, chat_name, chat_id) ∈ (scan_for_unread_chats lower st t probes).2 →
    chat_name ≠ c.
Proof.
  intros Hc Ht chat name id Hin ->.
  apply scan_selected in Hin.
  eapply check_row_cooldown in Hin; [|exact Hc]. lra.
Qed.

(** The tenth scan clears the surfaced rows when it finds a chat list. *)
Lemma scan_clears_on_tenth st t probes :
  Qltb (t - last_scan_time st) SCAN_COOLDOWN = false →
  all_chats probes ≠ [] →
  (scan_count st + 1) `mod` 10 = 0 →
  processed_chats (scan_for_unread_chats lower st t probes).1 = ∅.
Proof.
  intros Hcool Hchats Hten. unfold scan_for_unread_chats. rewrite Hcool.
  destruct (all_chats probes) as [|c chats]; [done|].
  destruct (scan_rows_result (stamp_scan st t) t (take 20 (c :: chats)))
    as [-> | (? & ? & ? & _ & _ & ->)]; simpl; by rewrite Hten.
Qed.

(** A scan that finds no chat list returns before the clearing, on every
    count. *)
Lemma scan_without_rows st t probes :
  Qltb (t - last_scan_time st) SCAN_COOLDOWN = false →
  all_chats probes = [] →
  scan_for_unread_chats lower st t probes = (stamp_scan st t, []).
Proof.
  intros Hcool Hchats. unfold scan_for_unread_chats.
  by rewrite Hcool, Hchats.
Qed.

End Scanner.

(** ** The monitoring loop *)

Section Loop.

Variable lower : pystr → pystr.

Implicit Types (st : agent) (e : env) (es : list env).

Lemma create_message_id_same_bucket (t1 t2 : Q) (m1 m2 chat_name : pystr) :
  take 50 m1 = take 50 m2 →
  py_int t1 `div` 60 = py_int t2 `div` 60 →
  create_message_id t1 m1 chat_name = create_message_id t2 m2 chat_name.
Proof.
  intros Hm Ht. unfold create_message_id. by rewrite Hm, Ht.
Qed.

(** An opened chat either is left without calling [send_message] and without
    any write, or holds a fresh user message that is answered. *)
Lemma process_chat_cases st e :
  let c := get_current_chat_name (e_header e) (e_header_clock e) in
  ((process_chat lower st e).1.1 = st
   ∧ send_attempted (process_chat lower st e).1.2 = false)
  ∨ ∃ m id,
      get_latest_incoming_message lower (e_incoming e) = Some m
      ∧ is_message_from_user m = true
      ∧ create_message_id (e_id_clock e) m c = Some id
      ∧ (id ∉ processed_messages st)
      ∧ (let g := generate_ai_response lower st (e_client e) m c in
         process_chat lower st e
         = if e_send e
           then (record_reply g.1 id c (e_send_clock e), Replied c g.2, true)
           else (g.1, SendFailed c g.2, true)).
Proof.
  intros c. unfold process_chat. fold c.
  destruct (get_latest_incoming_message lower (e_incoming e)) as [m|];
    [|by left].
  destruct (truthy m && _); [|by left].
  destruct (is_message_from_user m) eqn:Hu; simpl; [|by left].
  destruct (create_message_id (e_id_clock e) m c) as [id|] eqn:Hid; [|by left].
  case_bool_decide as Hin; [by left|].
  right. exists m, id. repeat split; try done.
  cbv zeta. destruct (generate_ai_response _ _ _ _ _) as [st' reply].
  by destruct (e_send e).
Qed.

(** The same for an iteration up to its housekeeping, [s] being the state
    the scanner leaves. *)
Lemma tick_body_cases st e :
  let s := (scan_for_unread_chats lower st (e_scan_clock e) (e_chat_lists e)).1 in
  let c := get_current_chat_name (e_header e) (e_header_clock e) in
  ((tick_body lower st e).1.1 = s
   ∧ send_attempted (tick_body lower st e).1.2 = false)
  ∨ ∃ m id,
      get_latest_incoming_message lower (e_incoming e) = Some m
      ∧ is_message_from_user m = true
      ∧ create_message_id (e_id_clock e) m c = Some id
      ∧ (id ∉ processed_messages s)
      ∧ (let g := generate_ai_response lower s (e_client e) m c in
         tick_body lower st e
         = if e_send e
           then (record_reply g.1 id c (e_send_clock e), Replied c g.2, true)
           else (g.1, SendFailed c g.2, true)).
Proof.
  intros s c. unfold tick_body. fold s.
  destruct (scan_for_unread_chats lower st _ _) as [s' unread] eqn:Hs.
  simpl in s. subst s.
  destruct unread as [|[[chat name] cid] rest]; [by left|].
  destruct (click_chat_element (e_click e)); simpl; [|by left].
  apply process_chat_cases.
Qed.

(** And for a whole iteration. *)
Lemma tick_cases st e :
  let s := (scan_for_unread_chats lower st (e_scan_clock e) (e_chat_lists e)).1 in
  let c := get_current_chat_name (e_header e) (e_header_clock e) in
  (((tick lower st e).1 = s ∨ (tick lower st e).1 = housekeeping s e)
   ∧ send_attempted (tick lower st e).2 = false)
  ∨ ∃ m id,
      get_latest_incoming_message lower (e_incoming e) = Some m
      ∧ is_message_from_user m = true
      ∧ create_message_id (e_id_clock e) m c = Some id
      ∧ (id ∉ processed_messages s)
      ∧ (let g := generate_ai_response lower s (e_client e) m c in
         tick lower st e
         = if e_send e
           then (housekeeping (record_reply g.1 id c (e_send_clock e)) e,
                 Replied c g.2)
           else (housekeeping g.1 e, SendFailed c g.2)).
Proof.
  intros s c. unfold tick.
  destruct (tick_body_cases st e)
    as [[Hst Hno] | (m & id & ? & ? & ? & ? & Hp)].
  - left. destruct (tick_body lower st e) as [[s' o] cont].
    simpl in *. subst s' s. destruct cont; split; auto.
  - right. exists m, id. repeat split; try done.
    cbv zeta in *. rewrite Hp. by destruct (e_send e).
Qed.

(** An iteration that reaches its housekeeping ends in the state that the
    housekeeping makes of the state the iteration came to. *)
Lemma tick_reaches_housekeeping st e :
  (tick_body lower st e).2 = true →
  tick lower st e
  = (housekeeping (tick_body lower st e).1.1 e, (tick_body lower st e).1.2).
Proof.
  unfold tick. destruct (tick_body lower st e) as [[s o] cont]. simpl.
  by intros ->.
Qed.

(** C8.  When an iteration reaches its housekeeping with more than 100
    fingerprints on record, whatever order the set is enumerated in, the
    housekeeping removes exactly 50 of them and adds none, so that the
    iteration ends with 50 fewer; the step is a total function, it has no
    failing case. *)
Theorem eviction_removes_fifty st e :
  (tick_body lower st e).2 = true →
  (100 < size (processed_messages (tick_body lower st e).1.1))%nat →
  e_messages_order e
    ≡ₚ elements (processed_messages (tick_body lower st e).1.1) →
  (tick lower st e).1 = housekeeping (tick_body lower st e).1.1 e
  ∧ (size (processed_messages (housekeeping (tick_body lower st e).1.1 e))
     = size (processed_messages (tick_body lower st e).1.1) - 50)%nat
  ∧ (size (processed_messages (tick lower st e).1)
     = size (processed_messages (tick_body lower st e).1.1) - 50)%nat
  ∧ (size (processed_messages (tick lower st e).1)
     < size (processed_messages (tick_body lower st e).1.1))%nat
  ∧ processed_messages (tick lower st e).1
    ⊆ processed_messages (tick_body lower st e).1.1.
Proof.
  intros Hcont Hsize Hperm.
  rewrite (tick_reaches_housekeeping st e Hcont). simpl.
  pose proof (cleanup_messages_size _ _ Hsize Hperm) as Heq.
  split; [done|]. split; [done|]. split; [done|]. split; [lia|].
  apply cleanup_messages_subseteq.
Qed.

Lemma run_app st es1 es2 :
  run lower st (es1 ++ es2) = run lower (run lower st es1) es2.
Proof.
  revert st. induction es1 as [|e es1 IH]; intros st; simpl; [done|].
  apply IH.
Qed.

(** The contact ledgers never lose an entry. *)
Lemma tick_contacts_grow st e :
  known_contacts st ⊆ known_contacts (tick lower st e).1
  ∧ busy_message_sent st ⊆ busy_message_sent (tick lower st e).1.
Proof.
  destruct (scan_frame lower st (e_scan_clock e) (e_chat_lists e))
    as (_ & _ & Hk & Hb).
  destruct (tick_cases st e) as [[[-> | ->] _] | (m & id & _ & _ & _ & _ & ->)];
    simpl; [by rewrite Hk, Hb..|].
  cbv zeta.
  pose proof (generate_frame lower
    (scan_for_unread_chats lower st (e_scan_clock e) (e_chat_lists e)).1
    (e_client e) m
    (get_current_chat_name (e_header e) (e_header_clock e)))
    as (Gk & Gb & _).
  rewrite Hk in Gk. rewrite Hb in Gb.
  by destruct (e_send e).
Qed.

Lemma run_contacts_grow st es :
  known_contacts st ⊆ known_contacts (run lower st es)
  ∧ busy_message_sent st ⊆ busy_message_sent (run lower st es).
Proof.
  revert st. induction es as [|e es IH]; intros st; simpl; [done|].
  destruct (tick_contacts_grow st e) as [Hk Hb].
  destruct (IH (tick lower st e).1) as [Hk' Hb'].
  split; etrans; eauto.
Qed.

(** Every contact that got the busy notice is a known contact. *)
Lemma run_busy_sent_known (now : Q) es :
  busy_message_sent (run lower (init now) es)
  ⊆ known_contacts (run lower (init now) es).
Proof.
  assert (G : ∀ st, busy_message_sent st ⊆ known_contacts st →
                    busy_message_sent (run lower st es)
                    ⊆ known_contacts (run lower st es)).
  { induction es as [|e es IH]; intros st Hst; simpl; [done|].
    apply IH.
    destruct (scan_frame lower st (e_scan_clock e) (e_chat_lists e))
      as (_ & _ & Hk & Hb).
    destruct (tick_cases st e)
      as [[[-> | ->] _] | (m & id & _ & _ & _ & _ & ->)];
      simpl; [by rewrite Hk, Hb..|].
    cbv zeta.
    set (s := (scan_for_unread_chats lower st _ _).1) in *.
    set (c := get_current_chat_name _ _).
    assert (busy_message_sent (generate_ai_response lower s (e_client e) m c).1
            ⊆ known_contacts (generate_ai_response lower s (e_client e) m c).1).
    { destruct (is_new_contact lower s c
                && negb (has_busy_message_been_sent lower s c)) eqn:E.
      - rewrite generate_busy_branch by done. simpl.
        rewrite Hk, Hb. by apply union_mono_l.
      - rewrite generate_not_busy_branch by done. simpl.
        rewrite Hk, Hb. etrans; [exact Hst|apply union_subseteq_r]. }
    by destruct (e_send e). }
  apply G. done.
Qed.

(** C2, as the code has it.  Once a contact is in the busy ledger it stays
    there, and the ledgers only grow, through any number of iterations; a
    reply generated for it afterwards never comes from the busy branch: it
    is the model's text, stripped, or the fixed fallback, which is not the
    busy notice, so that it is the busy notice only when the model itself
    wrote that sentence; and the call leaves the contact in both ledgers. *)
Theorem busy_notice_is_sent_once st es client message chat_name :
  lower (strip chat_name) ∈ busy_message_sent st →
  let st' := run lower st es in
  let r := generate_ai_response lower st' client message chat_name in
  lower (strip chat_name) ∈ busy_message_sent st'
  ∧ known_contacts st ⊆ known_contacts st'
  ∧ busy_message_sent st ⊆ busy_message_sent st'
  ∧ r.2 = generated_or_fallback client message
  ∧ fallback_reply ≠ busy_reply
  ∧ lower (strip chat_name) ∈ known_contacts r.1
  ∧ lower (strip chat_name) ∈ busy_message_sent r.1
  ∧ (r.2 = busy_reply ↔
     ∃ content, client system_prompt (user_prompt message) = Some content
                ∧ strip content = busy_reply)
  ∧ r.1 = mark_contact_as_known lower st' chat_name.
Proof.
  intros Hb st' r.
  destruct (run_contacts_grow st es) as [Hk' Hb'].
  assert (Hin : lower (strip chat_name) ∈ busy_message_sent st') by set_solver.
  assert (Hr : r = (mark_contact_as_known lower st' chat_name,
                    generated_or_fallback client message)).
  { apply generate_not_busy_branch.
    unfold has_busy_message_been_sent.
    rewrite bool_decide_eq_true_2 by done. apply andb_false_r. }
  rewrite Hr. simpl.
  repeat split; try done.
  - apply elem_of_union_l. by apply elem_of_singleton.
  - unfold generated_or_fallback.
    destruct (client system_prompt (user_prompt message)) as [content|].
    + intros H. by exists content.
    + intros H. by apply fallback_is_not_busy in H.
  - unfold generated_or_fallback. intros (content & -> & H). done.
Qed.

(** *** The cooldown ledger *)

Lemma tick_cooldown_kept st e c ts t0 :
  chat_cooldowns st !! c = Some ts →
  (t0 <= ts)%Q →
  clock_within t0 e →
  ∃ ts', chat_cooldowns (tick lower st e).1 !! c = Some ts' ∧ (t0 <= ts')%Q.
Proof.
  intros Hc Hts [Hsend Hclean]. unfold MESSAGE_COOLDOWN in Hclean.
  destruct (scan_frame lower st (e_scan_clock e) (e_chat_lists e))
    as (_ & Hcd & _).
  rewrite <- Hcd in Hc.
  destruct (tick_cases st e)
    as [[[-> | ->] _] | (m & id & _ & _ & _ & _ & ->)]; simpl.
  - eauto.
  - exists ts. split; [|done]. apply cleanup_cooldowns_lookup; [done|lra].
  - cbv zeta.
    set (s := (scan_for_unread_chats lower st _ _).1) in *.
    set (c' := get_current_chat_name _ _).
    pose proof (generate_frame lower s (e_client e) m c')
      as (_ & _ & _ & _ & _ & Gcd & _).
    destruct (e_send e); simpl.
    + destruct (decide (c' = c)) as [->|Hne].
      * exists (e_send_clock e). split; [|done].
        apply cleanup_cooldowns_lookup; [apply lookup_insert_eq|lra].
      * exists ts. split; [|done].
        apply cleanup_cooldowns_lookup; [|lra].
        rewrite lookup_insert_ne by done. by rewrite Gcd.
    + exists ts. split; [|done].
      apply cleanup_cooldowns_lookup; [by rewrite Gcd|lra].
Qed.

Lemma run_cooldown_kept st es c ts t0 :
  chat_cooldowns st !! c = Some ts →
  (t0 <= ts)%Q →
  Forall (clock_within t0) es →
  ∃ ts', chat_cooldowns (run lower st es) !! c = Some ts' ∧ (t0 <= ts')%Q.
Proof.
  revert st ts. induction es as [|e es IH]; intros st ts Hc Hts Hes; simpl.
  - eauto.
  - apply Forall_cons in Hes as [He Hes].
    destruct (tick_cooldown_kept st e c ts t0) as (ts' & Hc' & Hts'); try done.
    eapply IH; eauto.
Qed.

(** What a successful reply leaves in the ledgers. *)
Lemma tick_replied st e st' c reply :
  tick lower st e = (st', Replied c reply) →
  let s := (scan_for_unread_chats lower st (e_scan_clock e) (e_chat_lists e)).1 in
  ∃ m id,
    c = get_current_chat_name (e_header e) (e_header_clock e)
    ∧ get_latest_incoming_message lower (e_incoming e) = Some m
    ∧ create_message_id (e_id_clock e) m c = Some id
    ∧ e_send e = true
    ∧ st' = housekeeping
              (record_reply (generate_ai_response lower s (e_client e) m c).1
                            id c (e_send_clock e)) e.
Proof.
  intros H s.
  destruct (tick_cases st e) as [[_ Hno] | (m & id & Hm & _ & Hid & _ & Ht)].
  - rewrite H in Hno. done.
  - cbv zeta in Ht. rewrite H in Ht. fold s in Ht.
    exists m, id. destruct (e_send e); [|done].
    injection Ht as -> -> ->. done.
Qed.

(** What a failed send leaves in the ledgers: the fingerprint and cooldown
    ledgers as the housekeeping alone would, and the contact on record. *)
Lemma tick_send_failed st e st' c reply :
  tick lower st e = (st', SendFailed c reply) →
  processed_messages st'
  = cleanup_messages (e_messages_order e) (processed_messages st)
  ∧ chat_cooldowns st'
    = cleanup_cooldowns (e_clean_clock e) (chat_cooldowns st)
  ∧ lower (strip c) ∈ known_contacts st'.
Proof.
  intros H.
  destruct (scan_frame lower st (e_scan_clock e) (e_chat_lists e))
    as (Hpm & Hcd & _).
  destruct (tick_cases st e) as [[_ Hno] | (m & id & _ & _ & _ & _ & Ht)].
  - rewrite H in Hno. done.
  - cbv zeta in Ht. rewrite H in Ht.
    set (s := (scan_for_unread_chats lower st _ _).1) in *.
    set (c' := get_current_chat_name _ _) in *.
    pose proof (generate_frame lower s (e_client e) m c')
      as (_ & _ & Gin & Gpm & _ & Gcd & _).
    destruct (e_send e); [done|]. injection Ht as -> -> ->. simpl.
    rewrite Gpm, Gcd, Hpm, Hcd. done.
Qed.

(** C6.  After a reply to [c] was sent at clock reading [t0], and while the
    clock stays in the window of [MESSAGE_COOLDOWN] seconds that opens at
    [t0], the ledger holds an entry for [c] and no scan made in that window
    surfaces a row whose resolved name is [c], unread badge or not. *)
Theorem cooling_chat_is_not_surfaced st e1 st1 c reply es t probes :
  tick lower st e1 = (st1, Replied c reply) →
  (e_clean_clock e1 - e_send_clock e1 < MESSAGE_COOLDOWN)%Q →
  Forall (clock_within (e_send_clock e1)) es →
  (t - e_send_clock e1 < MESSAGE_COOLDOWN)%Q →
  chat_cooldowns st1 !! c = Some (e_send_clock e1)
  ∧ ∀ chat chat_name chat_id,
      (chat, chat_name, chat_id)
        ∈ (scan_for_unread_chats lower (run lower st1 es) t probes).2 →
      chat_name ≠ c.
Proof.
  intros Htick Hclean Hes Ht.
  assert (Hc : chat_cooldowns st1 !! c = Some (e_send_clock e1)).
  { apply tick_replied in Htick as (m & id & _ & _ & _ & _ & ->). simpl.
    unfold MESSAGE_COOLDOWN in Hclean.
    apply cleanup_cooldowns_lookup; [apply lookup_insert_eq|lra]. }
  split; [done|].
  destruct (run_cooldown_kept st1 es c (e_send_clock e1) (e_send_clock e1))
    as (ts & Hts & Hle); try done; [lra|].
  eapply scan_skips_cooling_chat; [exact Hts|lra].
Qed.

(** *** The fingerprint ledger *)

Lemma size_add_message (id : pystr) (messages : gset pystr) :
  (size ({[id]} ∪ messages) ≤ S (size messages))%nat.
Proof.
  rewrite size_union_alt, size_singleton.
  apply le_n_S, subseteq_size, subseteq_difference_l. done.
Qed.

(** Below 100 fingerprints an iteration evicts nothing and adds at most
    one. *)
Lemma tick_messages_kept st e :
  (size (processed_messages st) < 100)%nat →
  processed_messages st ⊆ processed_messages (tick lower st e).1
  ∧ (size (processed_messages (tick lower st e).1)
     ≤ S (size (processed_messages st)))%nat.
Proof.
  intros Hsize.
  destruct (scan_frame lower st (e_scan_clock e) (e_chat_lists e))
    as (Hpm & _).
  destruct (tick_cases st e)
    as [[[-> | ->] _] | (m & id & _ & _ & _ & _ & ->)]; simpl.
  - rewrite Hpm. split; [done|lia].
  - rewrite Hpm, cleanup_messages_small by lia. split; [done|lia].
  - cbv zeta.
    set (s := (scan_for_unread_chats lower st _ _).1) in *.
    set (c := get_current_chat_name _ _).
    pose proof (generate_frame lower s (e_client e) m c)
      as (_ & _ & _ & Gpm & _).
    pose proof (size_add_message id (processed_messages st)) as Hadd.
    destruct (e_send e); simpl; rewrite Gpm, Hpm.
    + rewrite cleanup_messages_small by lia.
      split; [apply union_subseteq_r|done].
    + rewrite cleanup_messages_small by lia. split; [done|lia].
Qed.

(** The outcome of an iteration is the one it came to before its
    housekeeping. *)
Lemma tick_outcome st e :
  (tick lower st e).2 = (tick_body lower st e).1.2.
Proof.
  unfold tick. by destruct (tick_body lower st e) as [[s o] []].
Qed.

(** The state an iteration comes to before its housekeeping holds the
    fingerprints it started with and at most one more. *)
Lemma tick_body_messages st e :
  processed_messages st ⊆ processed_messages (tick_body lower st e).1.1
  ∧ (size (processed_messages (tick_body lower st e).1.1)
     ≤ S (size (processed_messages st)))%nat.
Proof.
  destruct (scan_frame lower st (e_scan_clock e) (e_chat_lists e))
    as (Hpm & _).
  destruct (tick_body_cases st e)
    as [[-> _] | (m & id & _ & _ & _ & _ & ->)].
  - rewrite Hpm. split; [done|lia].
  - cbv zeta.
    set (s := (scan_for_unread_chats lower st _ _).1) in *.
    set (c := get_current_chat_name _ _).
    pose proof (generate_frame lower s (e_client e) m c)
      as (_ & _ & _ & Gpm & _).
    pose proof (size_add_message id (processed_messages st)) as Hadd.
    destruct (e_send e); simpl; rewrite Gpm, Hpm.
    + split; [apply union_subseteq_r|done].
    + split; [done|lia].
Qed.

(** When the iteration sends a reply, it reaches its housekeeping with one
    fingerprint more, that of the message answered. *)
Lemma tick_body_replied st e c reply :
  (tick_body lower st e).1.2 = Replied c reply →
  ∃ m id,
    get_latest_incoming_message lower (e_incoming e) = Some m
    ∧ create_message_id
        (e_id_clock e) m
        (get_current_chat_name (e_header e) (e_header_clock e)) = Some id
    ∧ (id ∉ processed_messages st)
    ∧ (tick_body lower st e).2 = true
    ∧ processed_messages (tick_body lower st e).1.1
      = {[id]} ∪ processed_messages st.
Proof.
  intros Hout.
  destruct (scan_frame lower st (e_scan_clock e) (e_chat_lists e))
    as (Hpm & _).
  destruct (tick_body_cases st e)
    as [[_ Hsa] | (m & id & Hm & _ & Hid & Hfresh & Hb)].
  - rewrite Hout in Hsa. done.
  - cbv zeta in Hb. rewrite Hb in Hout |- *. rewrite Hpm in Hfresh.
    exists m, id.
    set (s := (scan_for_unread_chats lower st _ _).1) in *.
    set (c' := get_current_chat_name _ _) in *.
    pose proof (generate_frame lower s (e_client e) m c')
      as (_ & _ & _ & Gpm & _).
    destruct (e_send e); simpl in Hout |- *; [|done].
    rewrite Gpm, Hpm. done.
Qed.

(** A housekeeping that meets at most 100 fingerprints keeps them all. *)
Lemma tick_no_eviction st e :
  ((tick_body lower st e).2 = true →
   (size (processed_messages (tick_body lower st e).1.1) ≤ 100)%nat) →
  processed_messages (tick lower st e).1
  = processed_messages (tick_body lower st e).1.1.
Proof.
  unfold tick. destruct (tick_body lower st e) as [[s o] cont]. simpl.
  intros H. destruct cont; simpl; [|done].
  apply cleanup_messages_small. by apply H.
Qed.

Lemma run_no_eviction st es :
  no_eviction lower st es →
  processed_messages st ⊆ processed_messages (run lower st es).
Proof.
  revert st. induction es as [|e es IH]; intros st Hno; [done|].
  destruct Hno as [He Hes]. cbn [run].
  etrans; [|by apply IH].
  rewrite (tick_no_eviction st e He). apply tick_body_messages.
Qed.

(** A reply that was sent is on record after its iteration, when the
    housekeeping of that iteration evicts nothing. *)
Lemma tick_replied_recorded st e st' c reply m :
  tick lower st e = (st', Replied c reply) →
  get_latest_incoming_message lower (e_incoming e) = Some m →
  ((tick_body lower st e).2 = true →
   (size (processed_messages (tick_body lower st e).1.1) ≤ 100)%nat) →
  ∃ id, create_message_id (e_id_clock e) m c = Some id
        ∧ id ∈ processed_messages st'.
Proof.
  intros Htick Hm Hno.
  pose proof (tick_no_eviction st e Hno) as Hkeep.
  pose proof (tick_outcome st e) as Hout.
  rewrite Htick in Hkeep, Hout. simpl in Hkeep, Hout.
  destruct (tick_body_cases st e)
    as [[_ Hsa] | (m' & id & Hm' & _ & Hid & _ & Hb)].
  - rewrite <- Hout in Hsa. done.
  - cbv zeta in Hb. rewrite Hb in Hkeep, Hout.
    assert (m' = m) as -> by congruence.
    destruct (e_send e); simpl in Hkeep, Hout; [|done].
    injection Hout as -> _.
    exists id. split; [done|]. rewrite Hkeep.
    apply elem_of_union_l. by apply elem_of_singleton.
Qed.

(** The cap of the fingerprint ledger: with legal enumerations it holds at
    most 100 entries between iterations, so the housekeeping meets at most
    101 and then leaves 51. *)
Lemma tick_messages_bounded st e :
  (size (processed_messages st) ≤ 100)%nat →
  ((100 < size (processed_messages (tick_body lower st e).1.1))%nat →
   e_messages_order e
     ≡ₚ elements (processed_messages (tick_body lower st e).1.1)) →
  (size (processed_messages (tick lower st e).1) ≤ 100)%nat.
Proof.
  intros Hsize Hlegal.
  destruct (scan_frame lower st (e_scan_clock e) (e_chat_lists e))
    as (Hpm & _).
  unfold tick.
  destruct (tick_body_cases st e)
    as [[Hst Hno] | (m & id & _ & _ & _ & _ & Hp)].
  - destruct (tick_body lower st e) as [[s' o] cont].
    simpl in *. subst s'. destruct cont; simpl; rewrite ?Hpm; [|done].
    etrans; [apply subseteq_size, cleanup_messages_subseteq|done].
  - cbv zeta in Hp. rewrite Hp in *.
    set (s := (scan_for_unread_chats lower st _ _).1) in *.
    set (c := get_current_chat_name _ _) in *.
    pose proof (generate_frame lower s (e_client e) m c)
      as (_ & _ & _ & Gpm & _).
    pose proof (size_add_message id (processed_messages st)) as Hadd.
    destruct (e_send e); simpl in *; rewrite Gpm, Hpm in *.
    + destruct (decide (size ({[id]} ∪ processed_messages st) ≤ 100)%nat).
      * by rewrite cleanup_messages_small.
      * rewrite cleanup_messages_size; [lia|lia|apply Hlegal; lia].
    + etrans; [apply subseteq_size, cleanup_messages_subseteq|done].
Qed.

Lemma run_messages_bounded st es :
  (size (processed_messages st) ≤ 100)%nat →
  evictions_legal lower st es →
  (size (processed_messages (run lower st es)) ≤ 100)%nat.
Proof.
  revert st. induction es as [|e es IH]; intros st Hsize Hlegal; [done|].
  destruct Hlegal as [He Hes]. cbn [run].
  apply IH; [|done]. by apply tick_messages_bounded.
Qed.

(** A run that cannot bring the ledger above 100 fingerprints asks for no
    enumeration. *)
Lemma evictions_legal_small st es :
  (size (processed_messages st) + length es ≤ 100)%nat →
  evictions_legal lower st es.
Proof.
  revert st. induction es as [|e es IH]; intros st Hsize; [done|].
  cbn [length] in Hsize. split.
  - destruct (tick_body_messages st e) as [_ Hle]. intros Hbig. lia.
  - destruct (tick_messages_kept st e) as [_ Hle]; [lia|]. apply IH. lia.
Qed.

Lemma evictions_legal_app st es1 es2 :
  evictions_legal lower st es1 →
  evictions_legal lower (run lower st es1) es2 →
  evictions_legal lower st (es1 ++ es2).
Proof.
  revert st. induction es1 as [|e es1 IH]; intros st H1 H2; [done|].
  destruct H1 as [He Hes]. split; [done|]. by apply IH.
Qed.

(** C3, with the condition that the code needs.  Fingerprints of the same
    contact, the same first 50 characters and the same minute are equal;
    and when a reply was sent and the housekeeping evicts nothing from then
    to the second occurrence, each iteration in between, that of the reply
    included, reaching its housekeeping with at most 100 fingerprints on
    record, the fingerprint of the second occurrence is found in the ledger
    and the iteration ends without calling [send_message]. *)
Theorem same_minute_duplicate_is_suppressed st e1 st1 c reply es e2 m1 m2 :
  tick lower st e1 = (st1, Replied c reply) →
  get_latest_incoming_message lower (e_incoming e1) = Some m1 →
  no_eviction lower st (e1 :: es) →
  get_current_chat_name (e_header e2) (e_header_clock e2) = c →
  get_latest_incoming_message lower (e_incoming e2) = Some m2 →
  take 50 m2 = take 50 m1 →
  py_int (e_id_clock e2) `div` 60 = py_int (e_id_clock e1) `div` 60 →
  create_message_id (e_id_clock e2) m2 c = create_message_id (e_id_clock e1) m1 c
  ∧ (∃ id, create_message_id (e_id_clock e2) m2 c = Some id
           ∧ id ∈ processed_messages (run lower st1 es))
  ∧ send_attempted (tick lower (run lower st1 es) e2).2 = false.
Proof.
  intros Htick Hm1 [Hfirst Hrest] Hc Hm2 Hpre Hmin.
  pose proof (create_message_id_same_bucket _ _ _ _ c Hpre Hmin) as Hsame.
  split; [done|].
  rewrite Htick in Hrest. cbn [fst] in Hrest.
  destruct (tick_replied_recorded st e1 st1 c reply m1 Htick Hm1 Hfirst)
    as (id & Hid & Hin1).
  assert (Hin : id ∈ processed_messages (run lower st1 es)).
  { by apply (run_no_eviction st1 es Hrest). }
  split; [exists id; split; [congruence|done]|].
  match goal with |- send_attempted (tick lower ?s e2).2 = false =>
    destruct (tick_cases s e2) as [[_ Hno] | (m & id' & Hm' & _ & Hid' & Hfresh & _)];
    [done|];
    destruct (scan_frame lower s (e_scan_clock e2) (e_chat_lists e2)) as (Hpm & _)
  end.
  rewrite Hpm in Hfresh. rewrite Hc in Hid'.
  assert (m = m2) as -> by congruence.
  assert (id' = id) as -> by congruence.
  contradiction.
Qed.

End Loop.

(** ** The model at work *)

Import Session.

(** C1 at work: Maria's first message to a fresh agent. *)
Lemma first_message_gets_busy_notice_witness :
  let r := generate_ai_response ascii_lower (init 0) (answers (lit "Hey!"))
                                (lit "hi") Maria in
  r.2 = busy_reply
  ∧ lit "maria" ∈ known_contacts r.1
  ∧ lit "maria" ∈ busy_message_sent r.1.
Proof.
  apply (first_message_gets_busy_notice ascii_lower (init 0)
           (answers (lit "Hey!")) (lit "hi") Maria).
  - apply not_elem_of_empty.
  - apply not_elem_of_empty.
  - reflexivity.
  - reflexivity.
Defined.

(** C9 at work: the placeholder name of the specification's scenario. *)
Lemma placeholder_is_never_new_witness :
  is_new_contact ascii_lower (init 0) (lit "Chat_120_340") = false
  ∧ generate_ai_response ascii_lower (init 0) unreachable_model (lit "hi")
                         (lit "Chat_120_340")
    = (mark_contact_as_known ascii_lower (init 0) (lit "Chat_120_340"),
       fallback_reply)
  ∧ busy_message_sent
      (generate_ai_response ascii_lower (init 0) unreachable_model (lit "hi")
                            (lit "Chat_120_340")).1 = ∅.
Proof.
  apply (placeholder_is_never_new ascii_lower (init 0) unreachable_model
           (lit "hi") (lit "Chat_120_340")).
  left. reflexivity.
Defined.

(** C2 at work: Maria got the busy notice; after one more iteration her
    next message is answered by the model. *)
Lemma busy_notice_is_sent_once_witness :
  let st := (generate_ai_response ascii_lower (init 0) unreachable_model
                                  (lit "hi") Maria).1 in
  let st' := run ascii_lower st [maria_hi 25 144 true []] in
  let r := generate_ai_response ascii_lower st' (answers (lit "Yep, what's up?"))
                                (lit "are you there?") Maria in
  lit "maria" ∈ busy_message_sent st
  ∧ r.2 = lit "Yep, what's up?"
  ∧ lit "maria" ∈ busy_message_sent r.1
  ∧ r.2 ≠ busy_reply.
Proof.
  cbv zeta.
  assert (H : ascii_lower (strip Maria)
              ∈ busy_message_sent
                  (generate_ai_response ascii_lower (init 0) unreachable_model
                                        (lit "hi") Maria).1).
  { vm_compute. reflexivity. }
  split; [exact H|].
  pose proof (busy_notice_is_sent_once ascii_lower _
                [maria_hi 25 144 true []] (answers (lit "Yep, what's up?"))
                (lit "are you there?") Maria H)
    as (_ & _ & _ & Hr & _ & _ & Hb & Hiff & _).
  split; [exact Hr|]. split; [exact Hb|].
  intros Hbusy. apply Hiff in Hbusy as (content & Hc & Hs).
  injection Hc as <-. vm_compute in Hs. discriminate Hs.
Defined.

(** C2, the counterexample: Maria got the busy notice at second 5; at second
    25 she writes again and the model answers with the sentence of the busy
    notice; that sentence is what [generate_ai_response] returns and what
    the loop sends to her a second time. *)
Lemma busy_notice_is_sent_twice :
  let st1 := (tick ascii_lower (init 0) (maria_hi 5 72 true [])).1 in
  (tick ascii_lower (init 0) (maria_hi 5 72 true [])).2
  = Replied Maria busy_reply
  ∧ lit "maria" ∈ busy_message_sent st1
  ∧ has_busy_message_been_sent ascii_lower st1 Maria = true
  ∧ (generate_ai_response ascii_lower st1 (answers busy_reply)
                          (lit "are you there?") Maria).2 = busy_reply
  ∧ (tick ascii_lower st1 (maria_echo 25 144)).2 = Replied Maria busy_reply.
Proof.
  cbv zeta. repeat split; vm_compute; reflexivity.
Qed.

(** C5, the counterexample: 121 letters a, with no signature and without
    the word assistant, are rejected all the same. *)
Lemma long_plain_text_is_rejected :
  spec_rejects (replicate 121 97) = false
  ∧ is_message_from_user (replicate 121 97) = false
  ∧ ¬ (∀ message_text,
         is_message_from_user message_text = false
         ↔ spec_rejects message_text = true).
Proof.
  split; [reflexivity|]. split; [reflexivity|].
  intros H. specialize (H (replicate 121 97)).
  destruct H as [H _]. specialize (H eq_refl). discriminate H.
Qed.

(** C6 at work: Maria is answered at second 5; an idle iteration follows at
    second 10; at second 15 her row, unread again, is not surfaced. *)
Lemma cooling_chat_is_not_surfaced_witness :
  let st1 := (tick ascii_lower (init 0) (maria_hi 5 72 true [])).1 in
  let es := [visit 10 [row Maria 0 72 false] Maria [] unreachable_model false []] in
  chat_cooldowns st1 !! Maria = Some 5%Q
  ∧ (scan_for_unread_chats ascii_lower (run ascii_lower st1 es) 15
       [Some [row Maria 0 144 true]]).2 = []
  ∧ ∀ chat chat_name chat_id,
      (chat, chat_name, chat_id)
        ∈ (scan_for_unread_chats ascii_lower (run ascii_lower st1 es) 15
             [Some [row Maria 0 144 true]]).2 →
      chat_name ≠ Maria.
Proof.
  cbv zeta.
  destruct (cooling_chat_is_not_surfaced ascii_lower (init 0)
              (maria_hi 5 72 true [])
              (tick ascii_lower (init 0) (maria_hi 5 72 true [])).1
              Maria busy_reply
              [visit 10 [row Maria 0 72 false] Maria [] unreachable_model false []]
              15 [Some [row Maria 0 144 true]]) as [Hc Hscan].
  - vm_compute. reflexivity.
  - vm_compute. reflexivity.
  - constructor; [|constructor]. split; vm_compute; [discriminate|reflexivity].
  - vm_compute. reflexivity.
  - split; [exact Hc|]. split; [vm_compute; reflexivity|exact Hscan].
Defined.

(** The full ledger is the state of the agent after the hundred replies. *)
Lemma ledger_25_reached : run ascii_lower (init 0) (notes 0 25) = ledger_25.
Proof. vm_cast_no_check (eq_refl ledger_25). Qed.

Lemma ledger_50_reached : run ascii_lower ledger_25 (notes 25 25) = ledger_50.
Proof. vm_cast_no_check (eq_refl ledger_50). Qed.

Lemma ledger_75_reached : run ascii_lower ledger_50 (notes 50 25) = ledger_75.
Proof. vm_cast_no_check (eq_refl ledger_75). Qed.

Lemma ledger_100_reached : run ascii_lower ledger_75 (notes 75 25) = full_ledger.
Proof. vm_cast_no_check (eq_refl full_ledger). Qed.

Lemma full_ledger_reached :
  run ascii_lower (init 0) hundred_replies = full_ledger.
Proof.
  change hundred_replies
    with (notes 0 25 ++ notes 25 25 ++ notes 50 25 ++ notes 75 25).
  rewrite !run_app.
  rewrite ledger_25_reached, ledger_50_reached, ledger_75_reached.
  apply ledger_100_reached.
Qed.

(** Maria's fingerprint is not among the hundred of the notes. *)
Lemma maria_id_is_fresh : maria_id ∉ processed_messages full_ledger.
Proof. apply (bool_decide_unpack _). vm_compute. exact I. Qed.

(** The iteration [maria_first] on the full ledger: the reply is sent, its
    fingerprint is the 101st on record when the housekeeping is reached, and
    the enumeration that the housekeeping gets is one of these 101. *)
Lemma maria_first_body :
  (tick_body ascii_lower full_ledger maria_first).2 = true
  ∧ processed_messages (tick_body ascii_lower full_ledger maria_first).1.1
    = {[maria_id]} ∪ processed_messages full_ledger
  ∧ size (processed_messages (tick_body ascii_lower full_ledger maria_first).1.1)
    = 101%nat
  ∧ e_messages_order maria_first
    ≡ₚ elements
         (processed_messages (tick_body ascii_lower full_ledger maria_first).1.1).
Proof.
  assert (Hout : (tick_body ascii_lower full_ledger maria_first).1.2
                 = Replied Maria (lit "Yep, what's up?"))
    by (vm_compute; reflexivity).
  apply tick_body_replied in Hout as (m & id & Hm & Hid & _ & Hcont & Hpm).
  assert (m = lit "hi") as ->
    by (vm_compute in Hm; injection Hm as <-; reflexivity).
  assert (id = maria_id) as ->
    by (vm_compute in Hid; injection Hid as <-; reflexivity).
  pose proof maria_id_is_fresh as Hfresh.
  split; [exact Hcont|]. split; [exact Hpm|].
  revert Hpm.
  generalize (processed_messages
                (tick_body ascii_lower full_ledger maria_first).1.1).
  intros X ->. split.
  - rewrite size_union by (by apply disjoint_singleton_l).
    rewrite size_singleton.
    assert (size (processed_messages full_ledger) = 100%nat) as ->
      by (vm_compute; reflexivity).
    reflexivity.
  - symmetry. by apply elements_union_singleton.
Qed.

(** C8 at work: after a hundred answered notes the ledger holds 100
    fingerprints; the reply to Maria's "hi" adds the 101st, and the
    housekeeping of that iteration leaves 51. *)
Lemma eviction_removes_fifty_witness :
  full_ledger = run ascii_lower (init 0) hundred_replies
  ∧ size (processed_messages (tick_body ascii_lower full_ledger maria_first).1.1)
    = 101%nat
  ∧ size (processed_messages (tick ascii_lower full_ledger maria_first).1)
    = 51%nat.
Proof.
  destruct maria_first_body as (Hcont & _ & Hsize & Hperm).
  split; [symmetry; apply full_ledger_reached|]. split; [exact Hsize|].
  destruct (eviction_removes_fifty ascii_lower full_ledger maria_first)
    as (_ & _ & H & _).
  - exact Hcont.
  - rewrite Hsize. lia.
  - exact Hperm.
  - rewrite H, Hsize. reflexivity.
Defined.

(** C3 at work: Maria's "hi" is answered at second 5; two iterations
    follow in which nothing is unread; at second 25, in the same minute, the
    same "hi" is read again. *)
Lemma same_minute_duplicate_is_suppressed_witness :
  let st1 := (tick ascii_lower (init 0) (maria_hi 5 72 true [])).1 in
  let es := [visit 10 [row Maria 0 72 false] Maria [] unreachable_model false [];
             visit 12 [row Maria 0 72 false] Maria [] unreachable_model false []] in
  (tick ascii_lower (init 0) (maria_hi 5 72 true [])).2 = Replied Maria busy_reply
  ∧ create_message_id 25 (lit "hi") Maria = create_message_id 5 (lit "hi") Maria
  ∧ (∃ id, create_message_id 25 (lit "hi") Maria = Some id
           ∧ id ∈ processed_messages (run ascii_lower st1 es))
  ∧ send_attempted
      (tick ascii_lower (run ascii_lower st1 es) (maria_hi 25 144 true [])).2
    = false.
Proof.
  cbv zeta. split; [vm_compute; reflexivity|].
  apply (same_minute_duplicate_is_suppressed ascii_lower (init 0)
           (maria_hi 5 72 true [])
           (tick ascii_lower (init 0) (maria_hi 5 72 true [])).1
           Maria busy_reply
           [visit 10 [row Maria 0 72 false] Maria [] unreachable_model false [];
            visit 12 [row Maria 0 72 false] Maria [] unreachable_model false []]
           (maria_hi 25 144 true []) (lit "hi") (lit "hi")).
  - vm_compute. reflexivity.
  - vm_compute. reflexivity.
  - repeat split; intros _; vm_compute; lia.
  - reflexivity.
  - vm_compute. reflexivity.
  - reflexivity.
  - vm_compute. reflexivity.
Defined.

(** C3, the counterexample: after a hundred answered notes the ledger holds
    100 fingerprints; Maria's "hi" is answered at second 2015; the
    housekeeping of that iteration evicts 50 of the 101, the newest among
    them; at second 2030, in the same minute, the same text from the same
    contact is answered a second time. *)
Lemma same_minute_duplicate_is_answered_twice :
  let st1 := (tick ascii_lower full_ledger maria_first).1 in
  full_ledger = run ascii_lower (init 0) hundred_replies
  ∧ size (processed_messages full_ledger) = 100%nat
  ∧ (tick ascii_lower full_ledger maria_first).2
    = Replied Maria (lit "Yep, what's up?")
  ∧ create_message_id (e_id_clock maria_first) (lit "hi") Maria = Some maria_id
  ∧ e_messages_order maria_first
    ≡ₚ elements ({[maria_id]} ∪ processed_messages full_ledger)
  ∧ get_current_chat_name (e_header maria_again) (e_header_clock maria_again)
    = Maria
  ∧ get_latest_incoming_message ascii_lower (e_incoming maria_again)
    = get_latest_incoming_message ascii_lower (e_incoming maria_first)
  ∧ py_int (e_id_clock maria_again) `div` 60
    = py_int (e_id_clock maria_first) `div` 60
  ∧ create_message_id (e_id_clock maria_again) (lit "hi") Maria = Some maria_id
  ∧ (maria_id ∉ processed_messages st1)
  ∧ (tick ascii_lower st1 maria_again).2
    = Replied Maria (lit "Yep, what's up?")
  ∧ send_attempted (tick ascii_lower st1 maria_again).2 = true.
Proof.
  cbv zeta.
  assert (Hfresh : maria_id ∉ processed_messages full_ledger).
  { apply (bool_decide_unpack _). vm_compute. exact I. }
  split; [symmetry; apply full_ledger_reached|].
  split; [vm_compute; reflexivity|].
  split; [vm_compute; reflexivity|].
  split; [vm_compute; reflexivity|].
  split; [symmetry; by apply elements_union_singleton|].
  split; [reflexivity|].
  split; [reflexivity|].
  split; [reflexivity|].
  split; [vm_compute; reflexivity|].
  split; [apply (bool_decide_unpack _); vm_compute; exact I|].
  split; vm_compute; reflexivity.
Qed.

(** C4, the failing run: Maria is new, the busy notice is generated and
    [send_message] fails.  The fingerprint and cooldown ledgers are
    untouched, but Maria is now in both contact ledgers; her message, read
    again, gets a generated reply: the busy notice never reaches her. *)
Theorem send_failure_still_marks_the_contact :
  let st1 := (tick ascii_lower (init 0) (maria_hi 5 72 false [])).1 in
  (tick ascii_lower (init 0) (maria_hi 5 72 false [])).2
  = SendFailed Maria busy_reply
  ∧ processed_messages st1 = processed_messages (init 0)
  ∧ chat_cooldowns st1 = chat_cooldowns (init 0)
  ∧ known_contacts (init 0) = ∅
  ∧ busy_message_sent (init 0) = ∅
  ∧ known_contacts st1 = {[lit "maria"]}
  ∧ busy_message_sent st1 = {[lit "maria"]}
  ∧ (tick ascii_lower st1 (maria_hi 10 144 true [])).2
    = Replied Maria (lit "Yep, what's up?").
Proof.
  cbv zeta. repeat split; vm_compute; reflexivity.
Qed.

(** C7, the failing run: nine scans leave Maria's row, at (0, 72), among the
    surfaced rows; the tenth scan finds no chat list and returns before the
    clearing; the row is still on record afterwards, and at second 55, when
    Maria's cooldown is over and her row is unread again, it is skipped. *)
Theorem tenth_scan_without_rows_clears_nothing :
  let st9 := run ascii_lower (init 0) nine_scans in
  let st10 := (tick ascii_lower st9 (blank 50)).1 in
  scan_count st9 = 9
  ∧ processed_chats st9 = {[lit "0_72"]}
  ∧ scan_count st10 = 10
  ∧ processed_chats st10 = {[lit "0_72"]}
  ∧ processed_chats st10 ≠ ∅
  ∧ (tick ascii_lower st10 (maria_hi 55 72 true [])).2 = Idle
  ∧ processed_chats
      (tick ascii_lower st9
         (visit 50 [row Maria 0 72 false] Maria [] unreachable_model false [])).1
    = ∅.
Proof.
  cbv zeta. repeat split; try (vm_compute; reflexivity).
  vm_compute. discriminate.
Qed.
(** * Further properties of the code *)

(** ** [str.strip] *)

Lemma lstrip_suffix (s : pystr) : ∃ pre, s = pre ++ lstrip s.
Proof.
  induction s as [|c s [pre IH]]; simpl.
  - by exists [].
  - destruct (is_space c); [|by exists []].
    exists (c :: pre). simpl. by f_equal.
Qed.

Lemma lstrip_head (s : pystr) c r : lstrip s = c :: r → is_space c = false.
Proof.
  induction s as [|d s IH]; simpl; [done|].
  destruct (is_space d) eqn:E; [done|]. intros H. by injection H as <- _.
Qed.

Lemma lstrip_app_nonspace (a b : pystr) c :
  is_space c = false → lstrip (a ++ c :: b) = lstrip a ++ c :: b.
Proof.
  intros H. induction a as [|d a IH]; simpl.
  - by rewrite H.
  - by destruct (is_space d).
Qed.

Lemma lstrip_idemp (s : pystr) : lstrip (lstrip s) = lstrip s.
Proof.
  destruct (lstrip s) as [|c r] eqn:E; [done|].
  apply lstrip_head in E. simpl. by rewrite E.
Qed.

(** A stripped text neither starts nor ends with white space: stripping it
    again changes nothing. *)
Lemma strip_idemp (s : pystr) : strip (strip s) = strip s.
Proof.
  unfold strip, rstrip.
  set (u := lstrip s).
  set (v := lstrip (rev u)).
  assert (Hl : lstrip (rev v) = rev v).
  { destruct (lstrip_suffix (rev u)) as [pre Hpre]. fold v in Hpre.
    apply (f_equal (λ x, rev x)) in Hpre. rewrite rev_involutive, rev_app_distr in Hpre.
    destruct (rev v) as [|c r] eqn:E; [done|].
    simpl in Hpre. subst u.
    apply lstrip_head in Hpre. simpl. by rewrite Hpre. }
  rewrite Hl, rev_involutive. subst v. by rewrite lstrip_idemp.
Qed.

Lemma strip_keeps_prefix (p r : pystr) c d :
  is_space c = false → is_space d = false →
  strip ((c :: p ++ [d]) ++ r) = (c :: p ++ [d]) ++ rstrip r.
Proof.
  intros Hc Hd. unfold strip.
  rewrite <- app_comm_cons. simpl lstrip. rewrite Hc.
  unfold rstrip. rewrite app_comm_cons.
  rewrite rev_app_distr.
  replace (rev (c :: p ++ [d])) with (d :: rev (c :: p)).
  2:{ rewrite app_comm_cons, rev_app_distr. done. }
  rewrite lstrip_app_nonspace by done.
  rewrite rev_app_distr. f_equal.
  change (d :: rev (c :: p)) with ([d] ++ rev (c :: p)).
  rewrite rev_app_distr, rev_involutive. done.
Qed.

(** ** Names, texts and the responder *)

Section Names.

Variable lower : pystr → pystr.

Implicit Types (st : agent) (e : env) (chat : chat_row).

Lemma name_from_elems_length elems n :
  name_from_elems lower elems = Some n → (3 ≤ length n ≤ 50)%nat.
Proof.
  induction elems as [|[el|] elems IH]; simpl; try done.
  match goal with
  | |- context [if ?b then _ else _] => destruct b eqn:E; [|done]
  end.
  intros [= <-].
  apply andb_prop in E as [E _]. apply andb_prop in E as [_ E].
  apply Nat.ltb_lt in E. rewrite length_take. lia.
Qed.

Lemma name_from_selectors_length probes n :
  name_from_selectors lower probes = Some n → (3 ≤ length n ≤ 50)%nat.
Proof.
  induction probes as [|[elems|] probes IH]; simpl; try done.
  destruct (name_from_elems lower elems) as [n'|] eqn:E; [|done].
  intros [= <-]. by eapply name_from_elems_length.
Qed.

Lemma header_name_nonempty (probes : list (option name_elem)) n :
  header_name probes = Some n → n ≠ [] ∧ strip n = n.
Proof.
  induction probes as [|[el|] probes IH]; simpl; try done.
  destruct (truthy (elem_name el) && truthy (strip (elem_name el))) eqn:E;
    [|done].
  intros [= <-]. apply andb_prop in E as [_ E]. split.
  - by destruct (strip (elem_name el)).
  - apply strip_idemp.
Qed.

(** X1.  The name given to a row is never empty: read from an element it
    has between 3 and 50 characters, and the fallback starts with "Chat_";
    the name read from the header of the opened chat is never empty either,
    and is stripped. *)
Theorem resolved_names_are_never_empty chat
    (probes : list (option name_elem)) (now : Q) :
  (3 ≤ length (get_chat_name_from_element lower chat))%nat
  ∧ (∀ n, name_from_selectors lower (row_names chat) = Some n →
          get_chat_name_from_element lower chat = n
          ∧ (3 ≤ length n ≤ 50)%nat)
  ∧ (name_from_selectors lower (row_names chat) = None →
     startswith (get_chat_name_from_element lower chat) (lit "Chat_") = true)
  ∧ get_current_chat_name probes now ≠ [].
Proof.
  unfold get_chat_name_from_element, get_current_chat_name.
  split; [|split; [|split]].
  - destruct (name_from_selectors lower (row_names chat)) as [n|] eqn:E.
    + apply name_from_selectors_length in E. lia.
    + destruct (row_name_location chat) as [[x y]|];
        rewrite length_app; simpl; lia.
  - intros n Hn. rewrite Hn. split; [done|].
    by eapply name_from_selectors_length.
  - intros ->. apply startswith_prefix.
    destruct (row_name_location chat) as [[x y]|]; eauto.
  - destruct (header_name probes) as [n|] eqn:E; [|done].
    by apply header_name_nonempty in E as [? _].
Qed.

(** X2.  The cooldown is recorded under the name read from the header,
    which is not truncated, and looked up under the name of the row, which
    is cut to 50 characters: a reply to a chat whose header name is longer
    than 50 characters leaves the scanner's verdict on every row whose name
    is read from its elements as it was. *)
Theorem long_header_name_has_no_cooldown st chat (id c : pystr) (now t : Q) :
  (50 < length c)%nat →
  is_Some (name_from_selectors lower (row_names chat)) →
  check_row lower (record_reply st id c now) t chat = check_row lower st t chat.
Proof.
  intros Hlen [n Hn].
  assert (Hne : get_chat_name_from_element lower chat ≠ c).
  { unfold get_chat_name_from_element. rewrite Hn.
    apply name_from_selectors_length in Hn. intros ->. lia. }
  unfold check_row. simpl.
  by rewrite lookup_insert_ne.
Qed.

(** The fallback name of an unreadable header, stripped, still starts with
    "Chat_". *)
Lemma fallback_name_stripped (n : Z) :
  ∃ r, strip (lit "Chat_" ++ str_of_int n) = lit "Chat_" ++ r.
Proof.
  exists (rstrip (str_of_int n)).
  change (lit "Chat_") with (67 :: [104; 97; 116] ++ [95]).
  by apply strip_keeps_prefix.
Qed.

Lemma generate_busy_ledger_unchanged st client message chat_name :
  is_new_contact lower st chat_name = false →
  busy_message_sent (generate_ai_response lower st client message chat_name).1
  = busy_message_sent st.
Proof.
  intros H. rewrite generate_not_busy_branch by (by rewrite H). done.
Qed.

(** X3.  When no header selector yields a name, the opened chat goes under
    the placeholder "Chat_<seconds>": it is never a new contact and the
    iteration leaves the busy ledger as it was, provided lower-casing turns
    the prefix "Chat_" into "chat_". *)
Theorem unreadable_header_never_gets_busy_notice st e :
  (∀ s, startswith (lower (lit "Chat_" ++ s)) (lit "chat_") = true) →
  header_name (e_header e) = None →
  (∀ st', is_new_contact lower st'
            (get_current_chat_name (e_header e) (e_header_clock e)) = false)
  ∧ busy_message_sent (tick lower st e).1 = busy_message_sent st.
Proof.
  intros Hlower Hhead.
  assert (Hnew : ∀ st', is_new_contact lower st'
            (get_current_chat_name (e_header e) (e_header_clock e)) = false).
  { intros st'. unfold get_current_chat_name. rewrite Hhead.
    destruct (fallback_name_stripped (py_int (e_header_clock e))) as [r Hr].
    unfold is_new_contact. rewrite Hr, Hlower.
    by case_bool_decide. }
  split; [done|].
  destruct (scan_frame lower st (e_scan_clock e) (e_chat_lists e))
    as (_ & _ & _ & Hb).
  destruct (tick_cases lower st e)
    as [[[-> | ->] _] | (m & id & _ & _ & _ & _ & ->)]; simpl; try done.
  cbv zeta.
  pose proof (generate_busy_ledger_unchanged
    (scan_for_unread_chats lower st (e_scan_clock e) (e_chat_lists e)).1
    (e_client e) m _ (Hnew _)) as Hg.
  destruct (e_send e); simpl; by rewrite Hg.
Qed.

(** The texts gathered from the page are stripped and not empty. *)
Lemma gather_texts_stripped (elems : list (option pystr)) (acc : list pystr) :
  Forall (λ m, m ≠ [] ∧ strip m = m) acc →
  Forall (λ m, m ≠ [] ∧ strip m = m) (gather_texts elems acc).1.
Proof.
  revert acc. induction elems as [|[text|] elems IH]; intros acc Hacc;
    simpl; try done.
  apply IH. destruct (strip text) as [|c r] eqn:E; simpl; [done|].
  apply Forall_app. split; [done|]. apply Forall_singleton.
  split; [done|]. rewrite <- E. apply strip_idemp.
Qed.

Lemma incoming_messages_stripped
    (probes : list (option (list (option pystr)))) (acc : list pystr) :
  Forall (λ m, m ≠ [] ∧ strip m = m) acc →
  Forall (λ m, m ≠ [] ∧ strip m = m) (incoming_messages probes acc).
Proof.
  revert acc. induction probes as [|[elems|] probes IH]; intros acc Hacc;
    simpl; try done; [|by apply IH].
  pose proof (gather_texts_stripped elems acc Hacc) as H.
  destruct (gather_texts elems acc) as [acc' raised]. simpl in H.
  destruct raised; [by apply IH|].
  destruct acc'; [by apply IH|done].
Qed.

(** X5.  The text that [get_latest_incoming_message] returns is stripped
    and not empty, so the loop's own test for a blank message never fails
    on it, and it contains none of the four indicators. *)
Theorem latest_incoming_message_is_stripped_text
    (probes : list (option (list (option pystr)))) (m : pystr) :
  get_latest_incoming_message lower probes = Some m →
  m ≠ [] ∧ strip m = m
  ∧ truthy m && (0 <? length (strip m))%nat = true
  ∧ existsb (λ indicator, str_in indicator m) ai_indicators = false.
Proof.
  unfold get_latest_incoming_message.
  destruct (last (incoming_messages probes [])) as [latest|] eqn:E; [|done].
  destruct (existsb _ ai_indicators) eqn:Hi; [done|].
  destruct (_ && _); [done|]. intros [= <-].
  pose proof (incoming_messages_stripped probes [] (Forall_nil_2 _)) as H.
  rewrite Forall_forall in H.
  destruct (H latest) as [Hne Hs].
  { apply last_Some in E as [l' ->]. apply elem_of_app. right.
    by apply list_elem_of_singleton. }
  repeat split; try done.
  rewrite Hs. destruct latest; [done|]. reflexivity.
Qed.

(** X14.  A second call of the responder for the same contact leaves the
    agent as the first call left it, whatever the message and the model do;
    and a call changes the status of no other contact. *)
Theorem responder_settles_after_one_call st
    (client client' : pystr → pystr → option pystr)
    (message message' chat_name : pystr) :
  let st1 := (generate_ai_response lower st client message chat_name).1 in
  (generate_ai_response lower st1 client' message' chat_name).1 = st1
  ∧ ∀ x, x ≠ lower (strip chat_name) →
         (x ∈ known_contacts st1 ↔ x ∈ known_contacts st)
         ∧ (x ∈ busy_message_sent st1 ↔ x ∈ busy_message_sent st).
Proof.
  intros st1.
  assert (Hk : lower (strip chat_name) ∈ known_contacts st1).
  { by destruct (generate_frame lower st client message chat_name)
      as (_ & _ & ? & _). }
  split.
  - rewrite generate_not_busy_branch
      by (by rewrite is_new_contact_known).
    simpl. destruct st1 as [pm pc cd ls sc kc bs]. simpl in *.
    unfold mark_contact_as_known. simpl. f_equal.
    apply set_eq. intros x. rewrite elem_of_union, elem_of_singleton.
    split; [intros [->|]; done | by right].
  - intros x Hx. subst st1.
    destruct (is_new_contact lower st chat_name
              && negb (has_busy_message_been_sent lower st chat_name)) eqn:E.
    + rewrite generate_busy_branch by done. simpl.
      rewrite !elem_of_union, !elem_of_singleton. intuition.
    + rewrite generate_not_busy_branch by done. simpl.
      rewrite !elem_of_union, !elem_of_singleton. intuition.
Qed.

End Names.

(** ** The fingerprint *)

Lemma utf8_char_is_Some (c : Z) : is_Some (utf8_char c) ↔ is_scalar c = true.
Proof.
  unfold utf8_char, is_scalar. rewrite is_Some_alt.
  destruct (Z.ltb_spec c 0), (Z.ltb_spec c 128), (Z.ltb_spec c 2048),
    (Z.ltb_spec c 65536), (Z.ltb_spec c 1114112), (Z.leb_spec 55296 c),
    (Z.leb_spec c 57343), (Z.leb_spec 0 c);
    simpl; try lia; by split.
Qed.

(** [str.encode] fails exactly on the texts with a code point that is not
    a scalar value. *)
Lemma encode_is_Some (s : pystr) :
  is_Some (encode s) ↔ Forall (λ c, is_scalar c = true) s.
Proof.
  unfold encode. rewrite fmap_is_Some, mapM_is_Some.
  apply Forall_iff. intros c. apply utf8_char_is_Some.
Qed.

Lemma lit_scalar (s : string) : Forall (λ c, is_scalar c = true) (lit s).
Proof.
  unfold lit. apply Forall_fmap, Forall_forall. intros a _. simpl.
  pose proof (N_ascii_bounded a) as H.
  unfold is_scalar.
  replace (0 <=? Z.of_N (N_of_ascii a)) with true
    by (symmetry; apply Z.leb_le; lia).
  replace (Z.of_N (N_of_ascii a) <? 1114112) with true
    by (symmetry; apply Z.ltb_lt; lia).
  replace (55296 <=? Z.of_N (N_of_ascii a)) with false
    by (symmetry; apply Z.leb_gt; lia).
  done.
Qed.

Lemma le_bytes_length (n : nat) (x : Z) : length (MD5.le_bytes n x) = n.
Proof.
  revert x. induction n as [|n IH]; intros x; simpl; [done|]. by rewrite IH.
Qed.

Lemma le_bytes_range (n : nat) (x : Z) :
  Forall (λ b, 0 ≤ b < 256) (MD5.le_bytes n x).
Proof.
  revert x. induction n as [|n IH]; intros x; simpl; [done|].
  constructor; [|apply IH].
  change 255 with (Z.ones 8). rewrite Z.land_ones by lia.
  apply Z.mod_pos_bound. lia.
Qed.

Lemma digest_bytes (msg : list Z) :
  length (MD5.digest msg) = 16%nat ∧ Forall (λ b, 0 ≤ b < 256) (MD5.digest msg).
Proof.
  unfold MD5.digest. cbv zeta. split.
  - rewrite !length_app, !le_bytes_length. done.
  - rewrite !Forall_app. repeat split; apply le_bytes_range.
Qed.

Lemma hex_digit_is_hex (n : Z) :
  0 ≤ n < 16 → is_hex_digit (MD5.hex_digit n) = true.
Proof.
  intros H. unfold MD5.hex_digit, is_hex_digit.
  destruct (n <? 10) eqn:E.
  - apply Z.ltb_lt in E. apply orb_true_iff. left.
    apply andb_true_iff. split; [apply Z.leb_le|apply Z.leb_le]; lia.
  - apply Z.ltb_ge in E. apply orb_true_iff. right.
    apply andb_true_iff. split; [apply Z.leb_le|apply Z.leb_le]; lia.
Qed.

Lemma hex_of_bytes (bs : list Z) :
  Forall (λ b, 0 ≤ b < 256) bs →
  let hex := bs ≫= λ b, [MD5.hex_digit (Z.shiftr b 4);
                          MD5.hex_digit (Z.land b 15)] in
  length hex = (2 * length bs)%nat ∧ Forall (λ c, is_hex_digit c = true) hex.
Proof.
  cbv zeta. induction 1 as [|b bs Hb Hbs [IHlen IHhex]]; [done|].
  cbn [mbind list_bind app length].
  split; [rewrite IHlen; lia|].
  constructor; [|constructor; [|done]].
  - apply hex_digit_is_hex. rewrite Z.shiftr_div_pow2 by lia.
    change (2 ^ 4) with 16. split.
    + apply Z.div_pos; lia.
    + apply Z.div_lt_upper_bound; lia.
  - apply hex_digit_is_hex.
    change 15 with (Z.ones 4). rewrite Z.land_ones by lia.
    apply Z.mod_pos_bound. lia.
Qed.

Lemma hexdigest_format (msg : list Z) :
  length (MD5.hexdigest msg) = 32%nat
  ∧ Forall (λ c, is_hex_digit c = true) (MD5.hexdigest msg).
Proof.
  unfold MD5.hexdigest.
  destruct (digest_bytes msg) as [Hlen Hrange].
  destruct (hex_of_bytes _ Hrange) as [Hl Hh].
  split; [|done]. rewrite Hl, Hlen. done.
Qed.

Lemma create_message_id_format (now : Q) (m c id : pystr) :
  create_message_id now m c = Some id →
  length id = 12%nat ∧ Forall (λ x, is_hex_digit x = true) id.
Proof.
  unfold create_message_id. cbv zeta.
  destruct (encode _) as [bytes|]; cbn [mbind option_bind]; [|done].
  intros H.
  assert (id = take 12 (MD5.hexdigest bytes)) as -> by congruence.
  destruct (hexdigest_format bytes) as [Hlen Hhex].
  split.
  - rewrite length_take. lia.
  - by apply Forall_take.
Qed.

Lemma create_message_id_scalar (now : Q) (m c id : pystr) :
  create_message_id now m c = Some id →
  Forall (λ x, is_scalar x = true) c.
Proof.
  unfold create_message_id. cbv zeta. intros H.
  assert (Hs : is_Some (encode (c ++ lit "::" ++ take 50 m ++ lit "::"
                 ++ str_of_int (py_int now `div` 60)))).
  { destruct (encode _); [done|discriminate]. }
  apply encode_is_Some in Hs. by apply Forall_app in Hs as [? _].
Qed.

(** X12.  A fingerprint exists exactly when the chat name and the first 50
    characters of the message can be encoded: a code point that UTF-8
    refuses makes the call raise when it lies there, and has no effect when
    it lies beyond the 50th character of the message. *)
Theorem fingerprint_exists_iff_encodable (now : Q) (m c : pystr) :
  is_Some (create_message_id now m c)
  ↔ Forall (λ x, is_scalar x = true) (c ++ take 50 m).
Proof.
  unfold create_message_id. cbv zeta.
  assert (H : is_Some (encode (c ++ lit "::" ++ take 50 m ++ lit "::"
                 ++ str_of_int (py_int now `div` 60)))
              ↔ Forall (λ x, is_scalar x = true) (c ++ take 50 m)).
  { rewrite encode_is_Some, !Forall_app. unfold str_of_int.
    pose proof (lit_scalar "::").
    pose proof (lit_scalar
      (NilEmpty.string_of_int (Z.to_int (py_int now `div` 60)))).
    tauto. }
  rewrite <- H. destruct (encode _); simpl.
  - split; intros _; eauto.
  - split; intros [? ?]; done.
Qed.

(** ** More on the scanner *)

Section ScannerMore.

Variable lower : pystr → pystr.

Implicit Types (st : agent) (e : env) (es : list env) (chat : chat_row).

(** Everything a selected row went through. *)
Lemma check_row_selected st t chat chat_name chat_id :
  check_row lower st t chat = Some (chat_name, chat_id) →
  row_displayed chat = Some true
  ∧ (∃ h, row_height chat = Some h ∧ 10 < h)
  ∧ (∃ x y, row_location chat = Some (x, y)
            ∧ chat_id = str_of_int x ++ lit "_" ++ str_of_int y)
  ∧ (chat_id ∉ processed_chats st)
  ∧ has_unread chat = true
  ∧ chat_name = get_chat_name_from_element lower chat.
Proof.
  unfold check_row. intros H.
  destruct (row_displayed chat) as [[]|]; simpl in H; try done.
  destruct (row_height chat) as [h|]; simpl in H; try done.
  destruct (Z.leb_spec h 10); try done.
  destruct (row_location chat) as [[x y]|]; simpl in H; try done.
  case_bool_decide as Hin; try done.
  destruct (has_unread chat); try done.
  destruct (chat_cooldowns st !! get_chat_name_from_element lower chat);
    [destruct (Qltb _ _); [done|]|]; injection H as <- <-;
    repeat split; eauto.
Qed.

(** A surfaced row passed [check_row] on the state the scan started in. *)
Lemma scanner_row_checks st t probes :
  ∀ chat chat_name chat_id,
    (chat, chat_name, chat_id) ∈ (scan_for_unread_chats lower st t probes).2 →
    chat_id ∉ processed_chats st.
Proof.
  intros chat name id Hel. apply scan_selected in Hel.
  by apply check_row_selected in Hel as (_ & _ & _ & ? & _).
Qed.

(** X8.  The scanner surfaces at most one row, and only a row among the
    first 20 of the chat list that is displayed, higher than 10 pixels,
    carries a visible unread badge and whose position is not on record;
    and only when [SCAN_COOLDOWN] has passed since the last counted scan. *)
Theorem scanner_surfaces_one_eligible_row st t probes :
  let unread := (scan_for_unread_chats lower st t probes).2 in
  (length unread ≤ 1)%nat
  ∧ ∀ chat chat_name chat_id,
      (chat, chat_name, chat_id) ∈ unread →
      (SCAN_COOLDOWN <= t - last_scan_time st)%Q
      ∧ chat ∈ take 20 (all_chats probes)
      ∧ row_displayed chat = Some true
      ∧ (∃ h, row_height chat = Some h ∧ 10 < h)
      ∧ has_unread chat = true
      ∧ (chat_id ∉ processed_chats st)
      ∧ chat_name = get_chat_name_from_element lower chat.
Proof.
  unfold scan_for_unread_chats.
  destruct (Qltb _ SCAN_COOLDOWN) eqn:Hcool.
  { simpl. split; [lia|]. by intros ??? ?%elem_of_nil. }
  apply Qltb_ge in Hcool.
  destruct (all_chats probes) as [|c chats] eqn:Hall.
  { simpl. split; [lia|]. by intros ??? ?%elem_of_nil. }
  destruct (scan_rows_result lower (stamp_scan st t) t (take 20 (c :: chats)))
    as [-> | (c' & n & i & Hin & Hc & ->)]; simpl.
  - split; [lia|]. by intros ??? ?%elem_of_nil.
  - split; [lia|]. intros chat name id Hel%list_elem_of_singleton.
    injection Hel as -> -> ->.
    apply check_row_selected in Hc as (? & ? & _ & ? & ? & ?).
    repeat split; done.
Qed.

(** What a scan does to the attributes of the scanner. *)
Lemma scan_counters st t probes :
  let st' := (scan_for_unread_chats lower st t probes).1 in
  (st' = st ∧ (scan_for_unread_chats lower st t probes).2 = [])
  ∨ (scan_count st' = scan_count st + 1
     ∧ last_scan_time st' = t
     ∧ (SCAN_COOLDOWN <= t - last_scan_time st)%Q
     ∧ (processed_chats st ⊆ processed_chats st'
        ∨ (scan_count st + 1) `mod` 10 = 0)).
Proof.
  unfold scan_for_unread_chats.
  destruct (Qltb _ SCAN_COOLDOWN) eqn:Hcool; [by left|].
  apply Qltb_ge in Hcool. right.
  destruct (all_chats probes) as [|c chats]; [simpl; auto|].
  destruct (scan_rows_result lower (stamp_scan st t) t (take 20 (c :: chats)))
    as [-> | (? & ? & i & _ & _ & ->)]; simpl;
    destruct (Z.eqb_spec ((scan_count st + 1) `mod` 10) 0); simpl;
    repeat split; auto.
  left. apply union_subseteq_r.
Qed.

(** The rest of an iteration leaves the attributes of the scanner alone. *)
Lemma tick_scanner_frame st e :
  let s := (scan_for_unread_chats lower st (e_scan_clock e) (e_chat_lists e)).1 in
  processed_chats (tick lower st e).1 = processed_chats s
  ∧ scan_count (tick lower st e).1 = scan_count s
  ∧ last_scan_time (tick lower st e).1 = last_scan_time s.
Proof.
  intros s.
  destruct (tick_cases lower st e)
    as [[[-> | ->] _] | (m & id & _ & _ & _ & _ & ->)]; simpl; try done.
  cbv zeta. fold s.
  pose proof (generate_frame lower s (e_client e) m
                (get_current_chat_name (e_header e) (e_header_clock e)))
    as (_ & _ & _ & _ & Gpc & _ & Gls & Gsc).
  by destruct (e_send e).
Qed.

(** X10.  An iteration counts at most one scan, and counts it only when
    [SCAN_COOLDOWN] has passed since the last counted scan, which it then
    stamps; otherwise the scanner's attributes are untouched and the
    iteration is idle. *)
Theorem scans_are_five_seconds_apart st e :
  let st' := (tick lower st e).1 in
  (scan_count st' = scan_count st
   ∧ last_scan_time st' = last_scan_time st
   ∧ processed_chats st' = processed_chats st
   ∧ (tick lower st e).2 = Idle)
  ∨ (scan_count st' = scan_count st + 1
     ∧ last_scan_time st' = e_scan_clock e
     ∧ (SCAN_COOLDOWN <= e_scan_clock e - last_scan_time st)%Q).
Proof.
  intros st'. subst st'.
  destruct (tick_scanner_frame st e) as (Hpc & Hsc & Hls).
  rewrite Hpc, Hsc, Hls.
  destruct (scan_counters st (e_scan_clock e) (e_chat_lists e))
    as [[Hst Hnil] | (? & ? & ? & _)]; [left|by right].
  rewrite Hst. repeat split.
  unfold tick, tick_body.
  destruct (scan_for_unread_chats lower st _ _) as [s unread].
  simpl in Hnil. by subst unread.
Qed.

(** The count of scans never goes down, and an iteration adds at most one
    to it. *)
Lemma tick_scan_count st e :
  scan_count st ≤ scan_count (tick lower st e).1 ≤ scan_count st + 1.
Proof.
  destruct (tick_scanner_frame st e) as (_ & -> & _).
  destruct (scan_counters st (e_scan_clock e) (e_chat_lists e))
    as [[-> _] | (-> & _)]; lia.
Qed.

Lemma run_scan_count st es :
  scan_count st ≤ scan_count (run lower st es).
Proof.
  revert st. induction es as [|e es IH]; intros st; simpl; [lia|].
  pose proof (tick_scan_count st e). pose proof (IH (tick lower st e).1). lia.
Qed.

(** An iteration that does not bring the count of scans to a multiple of
    ten forgets no row. *)
Lemma tick_keeps_surfaced_row st e (id : pystr) :
  id ∈ processed_chats st →
  scan_count (tick lower st e).1 `div` 10 = scan_count st `div` 10 →
  id ∈ processed_chats (tick lower st e).1.
Proof.
  destruct (tick_scanner_frame st e) as (-> & -> & _).
  intros Hin Hdiv.
  destruct (scan_counters st (e_scan_clock e) (e_chat_lists e))
    as [[-> _] | (Hc & _ & _ & Hsub)]; [done|].
  rewrite Hc in Hdiv.
  destruct Hsub as [Hsub | Hz]; [by apply Hsub|].
  exfalso. revert Hdiv Hz. generalize (scan_count st). intros n Hdiv Hz.
  Z.div_mod_to_equations. lia.
Qed.

(** X9.  A row position that is on record stays on record, and no row at
    that position is surfaced again, unread or not, through any number of
    iterations, counted as scans or not, as long as the count of scans has
    not reached the next multiple of ten. *)
Theorem surfaced_row_stays_hidden st es (id : pystr) t probes :
  id ∈ processed_chats st →
  scan_count (run lower st es) `div` 10 = scan_count st `div` 10 →
  id ∈ processed_chats (run lower st es)
  ∧ ∀ chat chat_name,
      (chat, chat_name, id)
        ∉ (scan_for_unread_chats lower (run lower st es) t probes).2.
Proof.
  intros Hin Hdiv.
  assert (Hrun : id ∈ processed_chats (run lower st es)).
  { revert st Hin Hdiv. induction es as [|e es IH]; intros st Hin Hdiv;
      simpl in *; [done|].
    pose proof (tick_scan_count st e) as Hstep.
    pose proof (run_scan_count (tick lower st e).1 es) as Hmono.
    assert (Hsame : scan_count (tick lower st e).1 `div` 10
                    = scan_count st `div` 10).
    { revert Hdiv Hstep Hmono.
      generalize (scan_count (run lower (tick lower st e).1 es)).
      generalize (scan_count (tick lower st e).1).
      generalize (scan_count st). intros a b c Hdiv Hstep Hmono.
      Z.div_mod_to_equations. lia. }
    apply IH; [by apply tick_keeps_surfaced_row|congruence]. }
  split; [done|]. intros chat name Hel.
  by apply scanner_row_checks in Hel.
Qed.

End ScannerMore.

(** ** More on the ledgers *)

Section LedgersMore.

Variable lower : pystr → pystr.

Implicit Types (st : agent) (e : env) (es : list env).

Lemma is_new_contact_true st chat_name :
  is_new_contact lower st chat_name = true →
  (lower (strip chat_name) ∉ known_contacts st)
  ∧ startswith (lower (strip chat_name)) (lit "chat_") = false
  ∧ startswith (lower (strip chat_name)) (lit "unknown_") = false.
Proof.
  unfold is_new_contact. case_bool_decide; [done|].
  destruct (startswith _ (lit "chat_")); [done|].
  destruct (startswith _ (lit "unknown_")); done.
Qed.

Lemma tick_busy_ledger_real st e :
  (∀ x, x ∈ busy_message_sent st →
        startswith x (lit "chat_") = false
        ∧ startswith x (lit "unknown_") = false) →
  ∀ x, x ∈ busy_message_sent (tick lower st e).1 →
       startswith x (lit "chat_") = false
       ∧ startswith x (lit "unknown_") = false.
Proof.
  intros Hst.
  destruct (scan_frame lower st (e_scan_clock e) (e_chat_lists e))
    as (_ & _ & _ & Hb).
  destruct (tick_cases lower st e)
    as [[[-> | ->] _] | (m & id & _ & _ & _ & _ & ->)]; simpl;
    try (by rewrite Hb).
  cbv zeta.
  set (s := (scan_for_unread_chats lower st _ _).1) in *.
  set (c := get_current_chat_name _ _).
  assert (G : ∀ x, x ∈ busy_message_sent
                     (generate_ai_response lower s (e_client e) m c).1 →
                   startswith x (lit "chat_") = false
                   ∧ startswith x (lit "unknown_") = false).
  { destruct (is_new_contact lower s c
              && negb (has_busy_message_been_sent lower s c)) eqn:E.
    - rewrite generate_busy_branch by done. simpl.
      apply andb_prop in E as [E _].
      apply is_new_contact_true in E as (_ & ? & ?).
      intros x [->%elem_of_singleton | Hx]%elem_of_union; [done|].
      apply Hst. by rewrite <- Hb.
    - rewrite generate_not_busy_branch by done. simpl.
      intros x Hx. apply Hst. by rewrite <- Hb. }
  by destruct (e_send e).
Qed.

(** X4.  From a fresh agent on, whatever the loop meets, every name in the
    busy ledger is a known contact and none is a placeholder name. *)
Theorem busy_ledger_holds_known_real_contacts (now : Q) es :
  busy_message_sent (run lower (init now) es)
  ⊆ known_contacts (run lower (init now) es)
  ∧ ∀ x, x ∈ busy_message_sent (run lower (init now) es) →
         startswith x (lit "chat_") = false
         ∧ startswith x (lit "unknown_") = false.
Proof.
  split; [apply run_busy_sent_known|].
  assert (G : ∀ st,
    (∀ x, x ∈ busy_message_sent st →
          startswith x (lit "chat_") = false
          ∧ startswith x (lit "unknown_") = false) →
    ∀ x, x ∈ busy_message_sent (run lower st es) →
         startswith x (lit "chat_") = false
         ∧ startswith x (lit "unknown_") = false).
  { induction es as [|e es IH]; intros st Hst; simpl; [done|].
    apply IH. by apply tick_busy_ledger_real. }
  apply G. intros x Hx. by apply elem_of_empty in Hx.
Qed.

Lemma tick_fingerprints_format st e :
  (∀ id, id ∈ processed_messages st →
         length id = 12%nat ∧ Forall (λ x, is_hex_digit x = true) id) →
  ∀ id, id ∈ processed_messages (tick lower st e).1 →
        length id = 12%nat ∧ Forall (λ x, is_hex_digit x = true) id.
Proof.
  intros Hst.
  destruct (scan_frame lower st (e_scan_clock e) (e_chat_lists e))
    as (Hpm & _).
  destruct (tick_cases lower st e)
    as [[[-> | ->] _] | (m & id & _ & _ & Hid & _ & ->)]; simpl.
  - by rewrite Hpm.
  - intros x Hx%cleanup_messages_subseteq. apply Hst. by rewrite <- Hpm.
  - cbv zeta.
    set (s := (scan_for_unread_chats lower st _ _).1) in *.
    set (c := get_current_chat_name _ _) in *.
    pose proof (generate_frame lower s (e_client e) m c)
      as (_ & _ & _ & Gpm & _).
    destruct (e_send e); simpl; intros x Hx%cleanup_messages_subseteq;
      rewrite Gpm, Hpm in Hx.
    + apply elem_of_union in Hx as [->%elem_of_singleton | Hx]; [|by apply Hst].
      by eapply create_message_id_format.
    + by apply Hst.
Qed.

(** X11.  A fingerprint is twelve lower-case hexadecimal digits, and so is
    every entry that the loop ever puts in [processed_messages]. *)
Theorem fingerprints_are_twelve_hex_digits :
  (∀ (now : Q) (m c id : pystr),
     create_message_id now m c = Some id →
     length id = 12%nat ∧ Forall (λ x, is_hex_digit x = true) id)
  ∧ ∀ (now : Q) es id,
      id ∈ processed_messages (run lower (init now) es) →
      length id = 12%nat ∧ Forall (λ x, is_hex_digit x = true) id.
Proof.
  split; [apply create_message_id_format|].
  intros now es.
  assert (G : ∀ st,
    (∀ id, id ∈ processed_messages st →
           length id = 12%nat ∧ Forall (λ x, is_hex_digit x = true) id) →
    ∀ id, id ∈ processed_messages (run lower st es) →
          length id = 12%nat ∧ Forall (λ x, is_hex_digit x = true) id).
  { induction es as [|e es IH]; intros st Hst; simpl; [done|].
    apply IH. by apply tick_fingerprints_format. }
  apply G. intros x Hx. by apply elem_of_empty in Hx.
Qed.

(** X6.  From a fresh agent on, when each enumeration of the set that the
    housekeeping uses for an eviction is one, [processed_messages] holds at
    most 100 fingerprints after each iteration. *)
Theorem fingerprint_ledger_is_capped (now : Q) es :
  evictions_legal lower (init now) es →
  (size (processed_messages (run lower (init now) es)) ≤ 100)%nat.
Proof.
  intros H. apply run_messages_bounded; [|done].
  unfold init. cbn [processed_messages]. rewrite size_empty. lia.
Qed.

(** X7.  After an iteration that reaches its housekeeping, every entry of
    the cooldown ledger is at most twice [MESSAGE_COOLDOWN] old, and it is
    an entry the ledger had, or the header name of the chat that has just
    been answered, stamped with the time of the reply. *)
Theorem cooldown_ledger_is_fresh st e c ts :
  (tick_body lower st e).2 = true →
  chat_cooldowns (tick lower st e).1 !! c = Some ts →
  (e_clean_clock e - ts <= MESSAGE_COOLDOWN * 2)%Q
  ∧ (chat_cooldowns st !! c = Some ts
     ∨ (ts = e_send_clock e ∧ ∃ reply, (tick lower st e).2 = Replied c reply)).
Proof.
  intros Hcont.
  destruct (scan_frame lower st (e_scan_clock e) (e_chat_lists e))
    as (_ & Hcd & _).
  unfold tick.
  destruct (tick_body_cases lower st e)
    as [[Hst _] | (m & id & _ & _ & _ & _ & Hp)].
  - destruct (tick_body lower st e) as [[s o] cont]. simpl in *.
    subst cont s. simpl. rewrite Hcd.
    intros [Hc Hf]%map_lookup_filter_Some. simpl in Hf.
    apply Qltb_ge in Hf. auto.
  - cbv zeta in Hp. rewrite Hp in *.
    set (s := (scan_for_unread_chats lower st _ _).1) in *.
    set (c' := get_current_chat_name _ _) in *.
    pose proof (generate_frame lower s (e_client e) m c')
      as (_ & _ & _ & _ & _ & Gcd & _).
    destruct (e_send e); simpl;
      intros [Hc Hf]%map_lookup_filter_Some; simpl in Hf;
      apply Qltb_ge in Hf; (split; [done|]).
    + destruct (decide (c' = c)) as [->|Hne].
      * rewrite lookup_insert_eq in Hc. injection Hc as <-.
        right. eauto.
      * rewrite lookup_insert_ne in Hc by done.
        left. by rewrite <- Hcd, <- Gcd.
    + left. by rewrite <- Hcd, <- Gcd.
Qed.

(** X13.  A chat whose header name holds a code point that UTF-8 refuses
    is never answered: the iteration does not call [send_message] and
    leaves the contact ledgers as they were, and records no fingerprint. *)
Theorem unencodable_chat_is_never_answered st e :
  ¬ Forall (λ x, is_scalar x = true)
           (get_current_chat_name (e_header e) (e_header_clock e)) →
  send_attempted (tick lower st e).2 = false
  ∧ known_contacts (tick lower st e).1 = known_contacts st
  ∧ busy_message_sent (tick lower st e).1 = busy_message_sent st
  ∧ processed_messages (tick lower st e).1 ⊆ processed_messages st.
Proof.
  intros Hbad.
  destruct (scan_frame lower st (e_scan_clock e) (e_chat_lists e))
    as (Hpm & _ & Hk & Hb).
  destruct (tick_cases lower st e)
    as [[[-> | ->] Hno] | (m & id & _ & _ & Hid & _ & _)]; simpl.
  - by rewrite Hpm, Hk, Hb.
  - rewrite Hpm, Hk, Hb. repeat split; try done.
    apply cleanup_messages_subseteq.
  - apply create_message_id_scalar in Hid. contradiction.
Qed.

(** X16.  Only a reply that went out is recorded: an iteration whose
    outcome is not [Replied] adds no fingerprint and no cooldown entry. *)
Theorem only_a_sent_reply_is_recorded st e :
  (∀ c reply, (tick lower st e).2 ≠ Replied c reply) →
  processed_messages (tick lower st e).1 ⊆ processed_messages st
  ∧ chat_cooldowns (tick lower st e).1 ⊆ chat_cooldowns st.
Proof.
  intros Hout.
  destruct (scan_frame lower st (e_scan_clock e) (e_chat_lists e))
    as (Hpm & Hcd & _).
  destruct (tick_cases lower st e)
    as [[[Hs | Hs] _] | (m & id & _ & _ & _ & _ & Ht)].
  - by rewrite Hs, Hpm, Hcd.
  - rewrite Hs. simpl. rewrite Hpm, Hcd. split.
    + apply cleanup_messages_subseteq.
    + apply map_filter_subseteq.
  - cbv zeta in Ht.
    set (s := (scan_for_unread_chats lower st _ _).1) in *.
    set (c := get_current_chat_name _ _) in *.
    pose proof (generate_frame lower s (e_client e) m c)
      as (_ & _ & _ & Gpm & _ & Gcd & _).
    destruct (e_send e).
    + exfalso. eapply Hout. by rewrite Ht.
    + rewrite Ht. simpl. rewrite Gpm, Gcd, Hpm, Hcd. split.
      * apply cleanup_messages_subseteq.
      * apply map_filter_subseteq.
Qed.

(** X17.  The contact ledgers change only in an iteration that goes as
    far as calling [send_message]. *)
Theorem only_an_attempt_touches_contacts st e :
  send_attempted (tick lower st e).2 = false →
  known_contacts (tick lower st e).1 = known_contacts st
  ∧ busy_message_sent (tick lower st e).1 = busy_message_sent st.
Proof.
  intros Hno.
  destruct (scan_frame lower st (e_scan_clock e) (e_chat_lists e))
    as (_ & _ & Hk & Hb).
  destruct (tick_cases lower st e)
    as [[[Hs | Hs] _] | (m & id & _ & _ & _ & _ & Ht)].
  - by rewrite Hs, Hk, Hb.
  - rewrite Hs. simpl. by rewrite Hk, Hb.
  - cbv zeta in Ht. rewrite Ht in Hno. by destruct (e_send e).
Qed.

(** X18.  When the scan that brings the count to a multiple of ten finds a
    chat list, the iteration ends with no row position on record, not even
    that of a row it has just surfaced. *)
Theorem tenth_scan_with_rows_forgets_every_row st e :
  (SCAN_COOLDOWN <= e_scan_clock e - last_scan_time st)%Q →
  all_chats (e_chat_lists e) ≠ [] →
  (scan_count st + 1) `mod` 10 = 0 →
  processed_chats (tick lower st e).1 = ∅.
Proof.
  intros Hcool Hrows Hten.
  destruct (tick_scanner_frame lower st e) as (-> & _).
  apply scan_clears_on_tenth; try done. by apply Qltb_ge.
Qed.

End LedgersMore.

(** ** Waiting for the page *)



(** ** Where a row's name comes from *)

Section RowNames.

Variable lower : pystr → pystr.

Lemma name_from_elems_origin (elems : list (option name_elem)) n :
  name_from_elems lower elems = Some n →
  ∃ el, Some el ∈ elems
        ∧ n = take 50 (strip (elem_name el))
        ∧ existsb (λ word, str_in word (lower (elem_name el))) exclude_words
          = false.
Proof.
  induction elems as [|[el|] elems IH]; simpl; try done.
  match goal with
  | |- context [if ?b then _ else _] => destruct b eqn:E
  end.
  - intros [= <-]. exists el. split; [left|]. split; [done|].
    apply andb_prop in E as [_ E]. by apply negb_true_iff in E.
  - intros H. destruct (IH H) as (el' & Hin & ? & ?).
    exists el'. split; [by right|done].
Qed.

(** X19.  A name read for a row comes from one of its elements: it is the
    name of that element, which is its title when that is not empty and its
    text otherwise, stripped and cut to 50 characters; and that name,
    lower-cased, contains none of the words "online", "last seen", "typing",
    "unread", "new message".  The words are looked for in the name alone: an
    element with a title is judged by its title, whatever its text. *)
Theorem row_name_comes_from_a_clean_element (chat : chat_row) n :
  name_from_selectors lower (row_names chat) = Some n →
  ∃ elems el,
    Some elems ∈ row_names chat
    ∧ Some el ∈ elems
    ∧ n = take 50 (strip (elem_name el))
    ∧ ∀ word, word ∈ exclude_words →
              str_in word (lower (elem_name el)) = false.
Proof.
  induction (row_names chat) as [|[elems|] probes IH]; simpl; try done.
  - destruct (name_from_elems lower elems) as [n'|] eqn:E.
    + intros [= <-].
      apply name_from_elems_origin in E as (el & Hin & Hn & Hw).
      exists elems, el. split; [left|]. split; [done|]. split; [done|].
      intros word Hword.
      destruct (str_in word (lower (elem_name el))) eqn:Hs; [|done].
      assert (existsb (λ w, str_in w (lower (elem_name el))) exclude_words
              = true); [|congruence].
      apply existsb_exists. exists word. by rewrite <- list_elem_of_In.
    + intros H. destruct (IH H) as (elems' & el & Hin & ?).
      exists elems', el. split; [by right|done].
  - intros H. destruct (IH H) as (elems' & el & Hin & ?).
    exists elems', el. split; [by right|done].
Qed.

End RowNames.

(** ** The further properties at work *)

Import Cases.

(** X2 at work: one second after a reply to a chat with a name of 51
    characters, its row is surfaced all the same. *)
Lemma long_header_name_has_no_cooldown_witness :
  (50 < length long_name)%nat
  ∧ chat_cooldowns (record_reply (init 0) maria_id long_name 5) !! long_name
    = Some 5%Q
  ∧ check_row ascii_lower (record_reply (init 0) maria_id long_name 5) 6
              (row long_name 0 72 true)
    = Some (take 50 long_name, lit "0_72").
Proof.
  split; [vm_compute; lia|]. split; [vm_compute; reflexivity|].
  rewrite (long_header_name_has_no_cooldown ascii_lower (init 0)
             (row long_name 0 72 true) maria_id long_name 5 6).
  - vm_compute. reflexivity.
  - vm_compute. lia.
  - vm_compute. eauto.
Defined.

(** X3 at work: the opened chat has no readable header. *)
Lemma unreadable_header_never_gets_busy_notice_witness :
  (tick ascii_lower (init 0) nameless).2
  = Replied (lit "Chat_5") (lit "Yep, what's up?")
  ∧ busy_message_sent (tick ascii_lower (init 0) nameless).1 = ∅.
Proof.
  split; [vm_compute; reflexivity|].
  apply (unreadable_header_never_gets_busy_notice ascii_lower (init 0) nameless).
  - intros [|c s]; reflexivity.
  - reflexivity.
Defined.

(** X5 at work *)
Lemma latest_incoming_message_is_stripped_text_witness :
  get_latest_incoming_message ascii_lower [Some [Some (lit "  hi ")]]
  = Some (lit "hi")
  ∧ strip (lit "hi") = lit "hi".
Proof.
  split; [reflexivity|].
  apply (latest_incoming_message_is_stripped_text ascii_lower
           [Some [Some (lit "  hi ")]] (lit "hi")).
  reflexivity.
Defined.

(** X9 at work: Maria's row was surfaced at the first scan; twelve
    iterations follow, one second apart, of which two are counted as scans;
    the count is then 3, and the row, unread again, is still skipped. *)
Lemma surfaced_row_stays_hidden_witness :
  let st := (tick ascii_lower (init 0) (maria_hi 5 72 true [])).1 in
  let es := (λ n, quiet (inject_Z (Z.of_nat n))) <$> seq 6 12 in
  length es = 12%nat
  ∧ scan_count st = 1
  ∧ scan_count (run ascii_lower st es) = 3
  ∧ lit "0_72" ∈ processed_chats (run ascii_lower st es)
  ∧ (scan_for_unread_chats ascii_lower (run ascii_lower st es)
       25 [Some [row Maria 0 72 true]]).2 = [].
Proof.
  cbv zeta.
  destruct (surfaced_row_stays_hidden ascii_lower
              (tick ascii_lower (init 0) (maria_hi 5 72 true [])).1
              ((λ n, quiet (inject_Z (Z.of_nat n))) <$> seq 6 12)
              (lit "0_72") 25
              [Some [row Maria 0 72 true]]) as [Hin _].
  - vm_compute. reflexivity.
  - vm_compute. reflexivity.
  - split; [reflexivity|]. split; [vm_compute; reflexivity|].
    split; [vm_compute; reflexivity|].
    split; [exact Hin|]. vm_compute. reflexivity.
Defined.

(** X6 at work: a run of 101 iterations, each with a reply.  The first
    hundred fill the ledger and use no enumeration; the last one brings the
    101st fingerprint, its housekeeping gets the set with the newest
    fingerprint first, and leaves 51. *)
Lemma fingerprint_ledger_is_capped_witness :
  let es := hundred_replies ++ [maria_first] in
  length es = 101%nat
  ∧ evictions_legal ascii_lower (init 0) es
  ∧ size (processed_messages (run ascii_lower (init 0) hundred_replies))
    = 100%nat
  ∧ size (processed_messages (run ascii_lower (init 0) es)) = 51%nat
  ∧ (size (processed_messages (run ascii_lower (init 0) es)) ≤ 100)%nat.
Proof.
  cbv zeta.
  assert (Hlegal : evictions_legal ascii_lower (init 0)
                     (hundred_replies ++ [maria_first])).
  { apply evictions_legal_app.
    - apply evictions_legal_small. vm_compute. lia.
    - rewrite full_ledger_reached.
      destruct maria_first_body as (_ & _ & _ & Hperm).
      split; [intros _; exact Hperm|exact I]. }
  split; [reflexivity|]. split; [exact Hlegal|].
  split; [rewrite full_ledger_reached; vm_compute; reflexivity|].
  split.
  - rewrite run_app, full_ledger_reached. vm_compute. reflexivity.
  - apply (fingerprint_ledger_is_capped ascii_lower 0 _ Hlegal).
Defined.

(** X7 at work *)
Lemma cooldown_ledger_is_fresh_witness :
  chat_cooldowns (tick ascii_lower (init 0) (maria_hi 5 72 true [])).1 !! Maria
  = Some 5%Q
  ∧ (5 - 5 <= MESSAGE_COOLDOWN * 2)%Q.
Proof.
  assert (H : chat_cooldowns
                (tick ascii_lower (init 0) (maria_hi 5 72 true [])).1 !! Maria
              = Some 5%Q) by (vm_compute; reflexivity).
  split; [exact H|].
  apply (cooldown_ledger_is_fresh ascii_lower (init 0)
           (maria_hi 5 72 true []) Maria 5 eq_refl H).
Defined.

(** X13 at work *)
Lemma unencodable_chat_is_never_answered_witness :
  (tick ascii_lower (init 0) garbled).2 = ProcessingError [77; 55357]
  ∧ send_attempted (tick ascii_lower (init 0) garbled).2 = false
  ∧ known_contacts (tick ascii_lower (init 0) garbled).1 = ∅.
Proof.
  split; [vm_compute; reflexivity|].
  destruct (unencodable_chat_is_never_answered ascii_lower (init 0) garbled)
    as (Hno & Hk & _).
  - intros H. apply Forall_inv_tail, Forall_inv in H. discriminate H.
  - split; [exact Hno|exact Hk].
Defined.

(** X16 at work: the send fails. *)
Lemma only_a_sent_reply_is_recorded_witness :
  (tick ascii_lower (init 0) (maria_hi 5 72 false [])).2
  = SendFailed Maria busy_reply
  ∧ processed_messages (tick ascii_lower (init 0) (maria_hi 5 72 false [])).1
    ⊆ ∅.
Proof.
  assert (H : (tick ascii_lower (init 0) (maria_hi 5 72 false [])).2
              = SendFailed Maria busy_reply) by (vm_compute; reflexivity).
  split; [exact H|].
  apply (only_a_sent_reply_is_recorded ascii_lower (init 0)
           (maria_hi 5 72 false [])).
  intros c reply. rewrite H. discriminate.
Defined.

(** X17 at work: the chat list is not found. *)
Lemma only_an_attempt_touches_contacts_witness :
  known_contacts (tick ascii_lower (init 0) (blank 5)).1 = ∅
  ∧ busy_message_sent (tick ascii_lower (init 0) (blank 5)).1 = ∅.
Proof.
  apply (only_an_attempt_touches_contacts ascii_lower (init 0) (blank 5)).
  reflexivity.
Defined.

(** X18 at work: the tenth scan surfaces Maria's row and forgets it. *)
Lemma tenth_scan_with_rows_forgets_every_row_witness :
  let st9 := run ascii_lower (init 0) nine_scans in
  (tick ascii_lower st9 (maria_hi 50 144 true [])).2
  = AlreadyProcessed (lit "3aebec6930d9")
  ∧ processed_chats (tick ascii_lower st9 (maria_hi 50 144 true [])).1 = ∅.
Proof.
  cbv zeta. split; [vm_compute; reflexivity|].
  apply (tenth_scan_with_rows_forgets_every_row ascii_lower
           (run ascii_lower (init 0) nine_scans) (maria_hi 50 144 true [])).
  - vm_compute. discriminate.
  - discriminate.
  - vm_compute. reflexivity.
Defined.

(** X19 at work: the status line is passed over. *)
Lemma row_name_comes_from_a_clean_element_witness :
  get_chat_name_from_element ascii_lower status_row = lit "Maria"
  ∧ ∃ elems el,
      Some elems ∈ row_names status_row
      ∧ Some el ∈ elems
      ∧ lit "Maria" = take 50 (strip (elem_name el))
      ∧ ∀ word, word ∈ exclude_words →
                str_in word (ascii_lower (elem_name el)) = false.
Proof.
  split; [reflexivity|].
  apply (row_name_comes_from_a_clean_element ascii_lower status_row (lit "Maria")).
  reflexivity.
Defined.

(** The words are looked for in the title when there is one: an element
    with the title "Maria" and the text "online" names the row. *)
Example titled_element_is_judged_by_its_title :
  get_chat_name_from_element ascii_lower titled_row = lit "Maria"
  ∧ str_in (lit "online")
           (ascii_lower (el_text (NameElem (Some (lit "Maria")) (lit "online"))))
    = true
  ∧ elem_name (NameElem (Some (lit "Maria")) (lit "online")) = lit "Maria"
  ∧ elem_name (NameElem (Some []) (lit "online")) = lit "online"
  ∧ elem_name (NameElem None (lit "online")) = lit "online".
Proof. repeat split; reflexivity. Qed.

(** X15 at work: the chat list shows at the third round, after 13 seconds
    of sleep. *)
Example wait_for_whatsapp_third_round :
  wait_for_whatsapp true third_round = Some (true, 13)
  ∧ wait_for_whatsapp true (λ _, WaitProbe None true []) = Some (false, 120)
  ∧ wait_for_whatsapp false third_round = Some (false, 0).
Proof. repeat split; reflexivity. Qed.
